(** * Occupancy inference pipeline of the parking-lot camera poller

    A shallow embedding of [src/app.py]: the point-in-polygon test
    ([check_overlap]), the vehicle filter and the occupancy resolver
    ([detect_occupancy]), the per-cycle aggregator ([run_status_check]),
    the map renderer ([draw_lot_map], as the list of rectangles it draws)
    and [fetch_cam_image] with the exceptions its page handling lets
    escape; and of the bounding box and the per-spot resolver of the legacy
    variant [src/v0-app.py].

    Numbers.  JSON numbers and the values computed from them are modelled as
    exact rationals ([Q]); comparisons are the boolean comparisons of [Q].
    Python raises on a division by zero, so division is a fallible
    operation here.  The module [Binary64] holds [check_overlap] a second
    time with Python's own numbers, unbounded ints and binary64 floats with
    their rounding, for the properties that rounding decides.

    Exceptions.  Every operation that can raise in Python returns a
    [result]; [Raise e] propagates through [bind] exactly like an uncaught
    exception does through the enclosing function. *)

From Stdlib Require Import QArith Qminmax Lqa List String Ascii Bool Lia ZArith
  PeanoNat Permutation SpecFloat.
Import ListNotations.

Set Implicit Arguments.

(* ================================================================== *)
(** ** Python values, exceptions and the error monad *)

Module Py.

Inductive exn : Type :=
| KeyError | TypeError | IndexError | ZeroDivisionError
| UnboundLocalError | ValueError | OverflowError | OSError.

Inductive result (A : Type) : Type :=
| Ok (a : A)
| Raise (e : exn).

Arguments Ok {A} a.
Arguments Raise {A} e.

Definition bind {A B} (m : result A) (k : A -> result B) : result B :=
  match m with
  | Ok a => k a
  | Raise e => Raise e
  end.

(** What [response.json()] can hand back: a JSON document after decoding. *)
#[local] Unset Elimination Schemes.
Inductive value : Type :=
| VNone
| VBool (b : bool)
| VNum (q : Q)
| VStr (s : string)
| VList (l : list value)
| VDict (d : list (string * value)).
#[local] Set Elimination Schemes.

(** Dictionaries are association lists with unique keys, in insertion
    order. *)
Fixpoint lookup {V} (k : string) (d : list (string * V)) : option V :=
  match d with
  | [] => None
  | (k', v) :: r => if String.eqb k k' then Some v else lookup k r
  end.

(** [d[k] = v] on a dict: replace in place when the key is present, append
    otherwise. *)
Fixpoint dict_set {V} (k : string) (v : V) (d : list (string * V))
  : list (string * V) :=
  match d with
  | [] => [(k, v)]
  | (k', v') :: r =>
      if String.eqb k k' then (k, v) :: r else (k', v') :: dict_set k v r
  end.

(** [obj.get(k)] and [obj.get(k, default)] on a dict. *)
Definition dict_get (d : list (string * value)) (k : string) : value :=
  match lookup k d with Some v => v | None => VNone end.

Definition dict_get_default (d : list (string * value)) (k : string)
           (default : value) : value :=
  match lookup k d with Some v => v | None => default end.

(** [obj[k]] with a string key: [KeyError] on a dict without the key,
    [TypeError] on anything that is not a dict. *)
Definition getitem (obj : value) (k : string) : result value :=
  match obj with
  | VDict d => match lookup k d with Some v => Ok v | None => Raise KeyError end
  | _ => Raise TypeError
  end.

(** Numbers as Python arithmetic sees them: [bool] is a subclass of [int]. *)
Definition as_num (v : value) : option Q :=
  match v with
  | VNum q => Some q
  | VBool true => Some 1
  | VBool false => Some 0
  | _ => None
  end.

(** [(a + b) / 2] on two values.  Whatever [+] does on strings or lists,
    the division by [2] that follows raises [TypeError] unless both operands
    are numbers. *)
Definition midpoint (a b : value) : result Q :=
  match as_num a, as_num b with
  | Some x, Some y => Ok ((x + y) / 2)
  | _, _ => Raise TypeError
  end.

(** [v > bound] against a float: a [TypeError] unless [v] is a number. *)
Definition gt_num (v : value) (bound : Q) : result bool :=
  match as_num v with
  | Some x => Ok (negb (Qle_bool x bound))
  | None => Raise TypeError
  end.

(** [v in labels] for a set of strings: the value is hashed first, and
    lists and dicts are unhashable. *)
Definition in_str_set (v : value) (labels : list string) : result bool :=
  match v with
  | VStr s => Ok (existsb (String.eqb s) labels)
  | VList _ | VDict _ => Raise TypeError
  | VNone | VBool _ | VNum _ => Ok false
  end.

(** [for obj in v]: the items of a list, the keys of a dict, the characters
    of a string; anything else is not iterable. *)
Fixpoint chars (s : string) : list value :=
  match s with
  | EmptyString => []
  | String c r => VStr (String c EmptyString) :: chars r
  end.

Definition iter (v : value) : result (list value) :=
  match v with
  | VList l => Ok l
  | VDict d => Ok (map (fun kv => VStr (fst kv)) d)
  | VStr s => Ok (chars s)
  | VNone | VBool _ | VNum _ => Raise TypeError
  end.

(** [l[i]] on a list. *)
Definition list_getitem {A} (l : list A) (i : nat) : result A :=
  match nth_error l i with
  | Some a => Ok a
  | None => Raise IndexError
  end.

(** [i % n] on non-negative integers. *)
Definition mod_ (i n : nat) : result nat :=
  match n with
  | O => Raise ZeroDivisionError
  | S _ => Ok (i mod n)
  end.

(** [a / b] on numbers. *)
Definition truediv (a b : Q) : result Q :=
  if Qeq_bool b 0 then Raise ZeroDivisionError else Ok (a / b).

(** [a < b], and the two-argument [min] and [max]: the first argument wins
    a tie. *)
Definition Qlt_bool (a b : Q) : bool := negb (Qle_bool b a).
Definition pymin (a b : Q) : Q := if Qlt_bool b a then b else a.
Definition pymax (a b : Q) : Q := if Qlt_bool a b then b else a.

(** A [for] loop over a list, the body threading its state and able to
    raise. *)
Fixpoint for_each {S I} (body : S -> I -> result S) (items : list I) (st : S)
  : result S :=
  match items with
  | [] => Ok st
  | i :: r => bind (body st i) (for_each body r)
  end.

End Py.

Import Py.

Declare Scope py_scope.
Delimit Scope py_scope with py.
Notation "x <- e ;; k" := (bind e (fun x => k))
  (at level 100, e at next level, right associativity) : py_scope.
Notation "' p <- e ;; k" := (bind e (fun x => let p := x in k))
  (at level 100, p pattern, e at next level, right associativity) : py_scope.
Open Scope py_scope.
Open Scope string_scope.
Open Scope list_scope.
Open Scope Q_scope.

(* ================================================================== *)
(** ** Geometry engine: [check_overlap] *)

Definition point : Type := (Q * Q)%type.
Definition polygon : Type := list point.

(** The locals of [check_overlap] that live across loop iterations.
    [x_intersection] is unbound until its first assignment. *)
Record locals : Type := Locals {
  is_inside : bool;
  p1x : Q;
  p1y : Q;
  x_intersection : option Q
}.

(** The guard on line 87. *)
Definition in_band (cx cy : Q) (a1x a1y a2x a2y : Q) : bool :=
  Qlt_bool (pymin a1y a2y) cy
  && Qle_bool cy (pymax a1y a2y)
  && Qle_bool cx (pymax a1x a2x).

(** Lines 88-91, run when the guard holds. *)
Definition crossing_branch (cx cy : Q) (st : locals) (p2x p2y : Q)
  : result locals :=
  xi <- (if negb (Qeq_bool (p1y st) p2y)
         then v <- truediv ((cy - p1y st) * (p2x - p1x st)) (p2y - p1y st) ;;
              Ok (Some (v + p1x st))
         else Ok (x_intersection st)) ;;
  hit <- (if Qeq_bool (p1x st) p2x then Ok true
          else match xi with
               | Some v => Ok (Qle_bool cx v)
               | None => Raise UnboundLocalError
               end) ;;
  Ok {| is_inside := if hit then negb (is_inside st) else is_inside st;
        p1x := p1x st; p1y := p1y st; x_intersection := xi |}.

(** One iteration of the loop, lines 86-92. *)
Definition loop_body (cx cy : Q) (poly : polygon) (st : locals) (i : nat)
  : result locals :=
  j <- mod_ i (List.length poly) ;;
  '(p2x, p2y) <- list_getitem poly j ;;
  st1 <- (if in_band cx cy (p1x st) (p1y st) p2x p2y
          then crossing_branch cx cy st p2x p2y
          else Ok st) ;;
  Ok {| is_inside := is_inside st1; p1x := p2x; p1y := p2y;
        x_intersection := x_intersection st1 |}.

(** Lines 82-93: the ray cast from the point [(cx, cy)]. *)
Definition ray_cast (cx cy : Q) (poly : polygon) : result bool :=
  let num_vertices := List.length poly in
  '(p0x, p0y) <- list_getitem poly 0 ;;
  st <- for_each (loop_body cx cy poly) (seq 0 (num_vertices + 1))
          {| is_inside := false; p1x := p0x; p1y := p0y;
             x_intersection := None |} ;;
  Ok (is_inside st).

(** Lines 79-80: the centre of the box. *)
Definition box_center (box : value) : result point :=
  xmin <- getitem box "xmin" ;;
  xmax <- getitem box "xmax" ;;
  cx <- midpoint xmin xmax ;;
  ymin <- getitem box "ymin" ;;
  ymax <- getitem box "ymax" ;;
  cy <- midpoint ymin ymax ;;
  Ok (cx, cy).

Definition check_overlap (box : value) (poly : polygon) : result bool :=
  '(cx, cy) <- box_center box ;;
  ray_cast cx cy poly.

(** The loop as the specification describes it: one toggle test per edge,
    the edges being vertex [j] to vertex [(j + 1) mod num_vertices]. *)
Definition x_at (cy : Q) (a b : point) : Q :=
  (cy - snd a) * (fst b - fst a) / (snd b - snd a) + fst a.

Definition x_test (cx cy : Q) (a b : point) : bool :=
  Qeq_bool (fst a) (fst b) || Qle_bool cx (x_at cy a b).

Definition edge_toggles (cx cy : Q) (a b : point) : bool :=
  in_band cx cy (fst a) (snd a) (fst b) (snd b) && x_test cx cy a b.

Definition ray_cast_edges (cx cy : Q) (poly : polygon) : bool :=
  let n := List.length poly in
  fold_left
    (fun inside j =>
       xorb inside
            (edge_toggles cx cy (nth j poly (0, 0))
                          (nth ((j + 1) mod n) poly (0, 0))))
    (seq 0 n) false.

(** The same fold cut after the first [k] edges (used as loop invariant). *)
Definition parity_upto (cx cy : Q) (poly : polygon) (k : nat) : bool :=
  fold_left
    (fun inside j =>
       xorb inside
            (edge_toggles cx cy (nth j poly (0, 0))
                          (nth ((j + 1) mod List.length poly) poly (0, 0))))
    (seq 0 k) false.

(* ================================================================== *)
(** ** Detection filter and occupancy resolver: [detect_occupancy] *)

Definition vehicle_labels : list string := ["car"; "truck"; "bus"; "motorcycle"].
Definition min_score : Q := 7 # 10.

(** The condition of the comprehension on line 101; [and] evaluates left to
    right and stops at the first false operand. *)
Definition is_vehicle (obj : value) : result bool :=
  match obj with
  | VDict d =>
      labelled <- in_str_set (dict_get d "label") vehicle_labels ;;
      if labelled
      then gt_num (dict_get_default d "score" (VNum 0)) min_score
      else Ok false
  | _ => Ok false
  end.

(** Lines 99-102: the list comprehension. *)
Fixpoint detected_vehicles (all_detected_objects : list value)
  : result (list value) :=
  match all_detected_objects with
  | [] => Ok []
  | obj :: r =>
      keep <- is_vehicle obj ;;
      rest <- detected_vehicles r ;;
      Ok (if keep then obj :: rest else rest)
  end.

(** Line 108: [any(check_overlap(vehicle['box'], polygon) for vehicle in
    detected_vehicles)], stopping at the first hit.  The second component
    is a ghost counter: the number of [check_overlap] calls that returned. *)
Fixpoint any_overlap (vehicles : list value) (poly : polygon)
  : result (bool * nat) :=
  match vehicles with
  | [] => Ok (false, O)
  | vehicle :: r =>
      box <- getitem vehicle "box" ;;
      hit <- check_overlap box poly ;;
      if hit then Ok (true, 1%nat)
      else '(b, n) <- any_overlap r poly ;; Ok (b, S n)
  end.

(** Lines 106-110: one entry appended per polygon, in order. *)
Fixpoint occupied_status (vehicles : list value) (polygons : list polygon)
  : result (list bool * nat) :=
  match polygons with
  | [] => Ok ([], O)
  | poly :: r =>
      '(is_occupied, n) <- any_overlap vehicles poly ;;
      '(rest, m) <- occupied_status vehicles r ;;
      Ok (is_occupied :: rest, (n + m)%nat)
  end.

(** Lines 98-110, from the detector's answer on; the ghost counter stays
    at zero on the early return of line 104. *)
Definition resolve_traced (all_detected_objects : value)
           (polygons : list polygon) : result (list bool * nat) :=
  objs <- iter all_detected_objects ;;
  vehicles <- detected_vehicles objs ;;
  match vehicles with
  | [] => Ok (repeat false (List.length polygons), O)
  | _ :: _ => occupied_status vehicles polygons
  end.

Definition resolve (all_detected_objects : value) (polygons : list polygon)
  : result (list bool) :=
  r <- resolve_traced all_detected_objects polygons ;;
  Ok (fst r).

(* ================================================================== *)
(** ** Status aggregator: [run_status_check] *)

(** One camera's entry of the spots document. *)
Record camera_data : Type := CameraData {
  polygons : option (list polygon);
  map_spots : option (list point)
}.

(** [cam_str.replace("cam", "")]: every occurrence removed, scanning left
    to right. *)
Fixpoint replace_cam (s : string) : string :=
  match s with
  | String "c" (String "a" (String "m" r)) => replace_cam r
  | String c r => String c (replace_cam r)
  | EmptyString => EmptyString
  end.

Section Collaborators.

(** The external collaborators.  [fetch_cam_image] returns the path of the
    saved snapshot, or nothing, or raises what lines 46-54 let through.
    [hf_detect_objects] stands for lines 96-97: opening the snapshot, which
    can raise, and the detector's decoded answer.  [int_of_str] is the
    builtin [int] on strings ([None] when it raises [ValueError]). *)
Variable image : Type.
Variable fetch_cam_image : Z -> result (option image).
Variable hf_detect_objects : image -> result value.
Variable int_of_str : string -> option Z.

(** Lines 95-110: the snapshot is opened and sent to the detector once
    (lines 96-97), and the answer is resolved against the polygons. *)
Definition detect_occupancy (image_path : image) (polys : list polygon)
  : result (list bool) :=
  all_detected_objects <- hf_detect_objects image_path ;;
  resolve all_detected_objects polys.

(** Line 133: [int(cam_str.replace("cam", ""))]. *)
Definition cam_number (cam_str : string) : result Z :=
  match int_of_str (replace_cam cam_str) with
  | Some n => Ok n
  | None => Raise ValueError
  end.

(** Lines 133-142: the body of the loop over [spots_data.items()]. *)
Definition camera_step (status : list (string * list bool))
           (item : string * camera_data) : result (list (string * list bool)) :=
  let '(cam_str, data) := item in
  cam_num <- cam_number cam_str ;;
  let polys := match polygons data with Some p => p | None => [] end in
  match polys with
  | [] => Ok (dict_set cam_str [] status)
  | _ :: _ =>
      cam_img_path <- fetch_cam_image cam_num ;;
      match cam_img_path with
      | Some cam_img_path =>
          occ <- detect_occupancy cam_img_path polys ;;
          Ok (dict_set cam_str occ status)
      | None =>
          Ok (dict_set cam_str (repeat false (List.length polys)) status)
      end
  end.

(** Lines 130-143: [status] starts empty and is returned after the last
    camera; an exception in any iteration leaves the function. *)
Definition run_status_check (spots_data : list (string * camera_data))
  : result (list (string * list bool)) :=
  for_each camera_step spots_data [].

End Collaborators.

(* ================================================================== *)
(** ** Vocabulary of the statements *)

(** The label and the score of a detection record
    [{label: string, score: number, box: {...}}], when it carries them. *)
Definition label_of (obj : value) : option string :=
  match obj with
  | VDict d => match lookup "label" d with Some (VStr l) => Some l | _ => None end
  | _ => None
  end.

Definition score_of (obj : value) : option Q :=
  match obj with
  | VDict d => match lookup "score" d with Some (VNum s) => Some s | _ => None end
  | _ => None
  end.


(** The records on which the condition of line 101 raises [TypeError]: a
    dict whose label is a list or a dict, which cannot be hashed, or whose
    label is a vehicle label while its score, when present, is no number. *)
Definition unreadable (obj : value) : bool :=
  match obj with
  | VDict d =>
      match dict_get d "label" with
      | VList _ | VDict _ => true
      | VStr l =>
          existsb (String.eqb l) vehicle_labels
          && match as_num (dict_get_default d "score" (VNum 0)) with
             | Some _ => false
             | None => true
             end
      | VNone | VBool _ | VNum _ => false
      end
  | _ => false
  end.

(** The records the condition of line 101 accepts: a dict with a vehicle
    label and a score that, read as a number, is above the threshold. *)
Definition passes (obj : value) : bool :=
  match obj with
  | VDict d =>
      match dict_get d "label" with
      | VStr l =>
          existsb (String.eqb l) vehicle_labels
          && match as_num (dict_get_default d "score" (VNum 0)) with
             | Some s => Qlt_bool min_score s
             | None => false
             end
      | _ => false
      end
  | _ => false
  end.


(** A vehicle label and a score strictly above the threshold. *)
Definition qualifies (obj : value) : bool :=
  match label_of obj, score_of obj with
  | Some l, Some s =>
      existsb (String.eqb l) vehicle_labels && Qlt_bool min_score s
  | _, _ => false
  end.





Section Entries.

Variable image : Type.
Variable fetch_cam_image : Z -> result (option image).
Variable hf_detect_objects : image -> result value.
Variable int_of_str : string -> option Z.

(** The vector one camera contributes, read off [camera_step]. *)
Definition camera_entry (cam_str : string) (data : camera_data)
  : result (list bool) :=
  cam_num <- cam_number int_of_str cam_str ;;
  let polys := match polygons data with Some p => p | None => [] end in
  match polys with
  | [] => Ok []
  | _ :: _ =>
      cam_img_path <- fetch_cam_image cam_num ;;
      match cam_img_path with
      | Some cam_img_path => detect_occupancy hf_detect_objects cam_img_path polys
      | None => Ok (repeat false (List.length polys))
      end
  end.

Fixpoint entries (items : list (string * camera_data))
  : result (list (string * list bool)) :=
  match items with
  | [] => Ok []
  | (cam_str, data) :: r =>
      v <- camera_entry cam_str data ;;
      rest <- entries r ;;
      Ok ((cam_str, v) :: rest)
  end.

End Entries.

(* ================================================================== *)
(** ** Sample data *)

Module Sample.

Definition square (x y side : Q) : polygon :=
  [(x, y); (x + side, y); (x + side, y + side); (x, y + side)].

Definition triangle : polygon := [(0, 0); (10, 0); (10, 10)].

(** Four spots in a row, each 10 wide. *)
Definition row : list polygon :=
  [square 0 0 10; square 10 0 10; square 20 0 10; square 30 0 10].

Definition record (label : string) (score : Q) (xmin ymin xmax ymax : Q)
  : value :=
  VDict [("label", VStr label); ("score", VNum score);
         ("box", VDict [("xmin", VNum xmin); ("ymin", VNum ymin);
                        ("xmax", VNum xmax); ("ymax", VNum ymax)])].

(** A record with a label and a score and no box. *)
Definition boxless (label : string) (score : Q) : value :=
  VDict [("label", VStr label); ("score", VNum score)].

(** A record with a label and a box and no score. *)
Definition scoreless : list (string * value) :=
  [("label", VStr "truck");
   ("box", VDict [("xmin", VNum 1); ("ymin", VNum 1);
                  ("xmax", VNum 3); ("ymax", VNum 3)])].

(** Two cameras: camera 1 is unreachable, camera 2 shows one car in the
    third spot. *)
Definition fetch (cam_num : Z) : result (option nat) :=
  if (cam_num =? 1)%Z then Ok None else Ok (Some (Z.to_nat cam_num)).

Definition detect (img : nat) : result value :=
  Ok (VList [record "car" (9 # 10) 22 2 28 8]).

Definition int_of_str (s : string) : option Z :=
  if String.eqb s "1" then Some 1%Z
  else if String.eqb s "2" then Some 2%Z
  else if String.eqb s "3" then Some 3%Z
  else None.

Definition cam1 : camera_data :=
  {| polygons := Some [triangle; square 0 0 10]; map_spots := None |}.
Definition cam2 : camera_data :=
  {| polygons := Some row; map_spots := None |}.
Definition cam3 : camera_data :=
  {| polygons := Some []; map_spots := Some [(5, 5)] |}.

(** The same two cameras with markers on the lot map: camera 1 has more
    map spots than polygons, camera 2 fewer. *)
Definition lot_cam1 : camera_data :=
  {| polygons := Some [triangle; square 0 0 10];
     map_spots := Some [(100, 50); (120, 50); (140, 50)] |}.
Definition lot_cam2 : camera_data :=
  {| polygons := Some row;
     map_spots := Some [(100, 90); (120, 90); (140, 90)] |}.
Definition lot : list (string * camera_data) :=
  [("cam1", lot_cam1); ("cam2", lot_cam2)].

(** A detector whose answer holds a record without a box, behind an image
    source that always succeeds. *)
Definition detect_boxless (img : nat) : result value :=
  Ok (VList [boxless "car" (9 # 10)]).

Definition fetch_always (cam_num : Z) : result (option nat) :=
  Ok (Some (Z.to_nat cam_num)).

(** A large and a small box around the same centre. *)
Definition large_box : value :=
  VDict [("xmin", VNum 0); ("ymin", VNum 0); ("xmax", VNum 30); ("ymax", VNum 10)].
Definition small_box : value :=
  VDict [("xmin", VNum 14); ("ymin", VNum 4); ("xmax", VNum 16); ("ymax", VNum 6)].

End Sample.

(* ================================================================== *)
(** ** Map renderer: [draw_lot_map] *)

(** One [draw.rounded_rectangle(rect, radius=radius, fill=color)] call. *)
Record marker : Type := Marker {
  rect : Q * Q * Q * Q;
  radius : Z;
  fill : Z * Z * Z * Z
}.

Definition occupied_color : Z * Z * Z * Z := (220, 40, 40, 180)%Z.
Definition free_color : Z * Z * Z * Z := (40, 220, 40, 180)%Z.

(** Lines 119-126: the body of the loop over [enumerate(occupancy_list)];
    the state is the list of calls made on the drawing so far. *)
Definition draw_spot (map_spots : list point) (drawn : list marker)
           (item : nat * bool) : result (list marker) :=
  let '(idx, occ) := item in
  if (List.length map_spots <=? idx)%nat then Ok drawn
  else
    '(x, y) <- list_getitem map_spots idx ;;
    let width := 12%Z in
    let height := 28%Z in
    let radius := 5%Z in
    let rect := (x - inject_Z (width / 2), y - inject_Z (height / 2),
                 x + inject_Z (width / 2), y + inject_Z (height / 2)) in
    let color := if occ then occupied_color else free_color in
    Ok (drawn ++ [{| rect := rect; radius := radius; fill := color |}]).

(** [enumerate(l)]. *)
Definition enumerate {A} (l : list A) : list (nat * A) :=
  combine (seq 0 (List.length l)) l.

(** Lines 116-126: the body of the loop over [status.items()];
    [spots_data.get(cam, {}).get("map_spots", [])] is an empty list when
    the camera or the key is absent. *)
Definition draw_camera (spots_data : list (string * camera_data))
           (drawn : list marker) (item : string * list bool)
  : result (list marker) :=
  let '(cam, occupancy_list) := item in
  let map_spots :=
    match lookup cam spots_data with
    | Some data => match map_spots data with Some l => l | None => [] end
    | None => []
    end in
  for_each (draw_spot map_spots) (enumerate occupancy_list) drawn.


(** The marker of one spot, as lines 121-126 compute it. *)
Definition marker_at (spot : point) (occ : bool) : marker :=
  {| rect := (fst spot - 6, snd spot - 14, fst spot + 6, snd spot + 14);
     radius := 5%Z;
     fill := if occ then occupied_color else free_color |}.

Definition spots_of (spots_data : list (string * camera_data)) (cam : string)
  : list point :=
  match lookup cam spots_data with
  | Some data => match map_spots data with Some l => l | None => [] end
  | None => []
  end.

Definition polygons_of (data : camera_data) : list polygon :=
  match polygons data with Some p => p | None => [] end.

(* ================================================================== *)
(** ** The snapshot page: the [src] of the image tag *)

Fixpoint startswith (s prefix : string) : bool :=
  match prefix, s with
  | EmptyString, _ => true
  | String p prefix', String c s' => Ascii.eqb c p && startswith s' prefix'
  | String _ _, EmptyString => false
  end.

(** [s.split(",")]: the pieces between the commas, always at least one. *)
Fixpoint split_comma (s : string) : list string :=
  match s with
  | EmptyString => [EmptyString]
  | String c r =>
      if Ascii.eqb c ","%char then EmptyString :: split_comma r
      else match split_comma r with
           | piece :: pieces => String c piece :: pieces
           | [] => [String c EmptyString]
           end
  end.

(** Lines 48-49 of [fetch_cam_image], on the [src] attribute: the base64
    text to decode, or nothing when the attribute is no data URI. *)
Definition base64_data (src : string) : result (option string) :=
  if startswith src "data:image"
  then piece <- list_getitem (split_comma src) 1 ;; Ok (Some piece)
  else Ok None.

Fixpoint has_comma (s : string) : bool :=
  match s with
  | EmptyString => false
  | String c r => Ascii.eqb c ","%char || has_comma r
  end.

Fixpoint has_char (a : ascii) (s : string) : bool :=
  match s with
  | EmptyString => false
  | String c r => Ascii.eqb c a || has_char a r
  end.

Section Fetch.

(** What [fetch_cam_image] gets from outside: the text of the camera's page
    (nothing when [requests] raises, which lines 42-44 catch), the [src]
    attribute of its first image tag (nothing without a tag or without the
    attribute), and lines 50-54, which decode the base64 text, open the
    image and save it, and can raise. *)
Variable image : Type.
Variable get_page : Z -> option string.
Variable img_src : string -> option string.
Variable save_snapshot : Z -> string -> result image.

(** Lines 37-55. *)
Definition fetch_cam_image (cam_num : Z) : result (option image) :=
  match get_page cam_num with
  | None => Ok None
  | Some text =>
      match img_src text with
      | None => Ok None
      | Some src =>
          data <- base64_data src ;;
          match data with
          | None => Ok None
          | Some text64 =>
              path <- save_snapshot cam_num text64 ;; Ok (Some path)
          end
      end
  end.

End Fetch.

(* ================================================================== *)
(** ** The legacy variant, [src/v0-app.py] *)

(** [min(xs)] and [max(xs)] on a non-empty sequence: the running value is
    replaced only by a strictly smaller (larger) item. *)
Definition min_seq (first : Q) (rest : list Q) : Q := fold_left pymin rest first.
Definition max_seq (first : Q) (rest : list Q) : Q := fold_left pymax rest first.

(** Lines 20-22: the two coordinate sequences come from [zip] applied to
    the unpacked polygon, which has nothing to unpack into [xs, ys] when
    the polygon is empty. *)
Definition polygon_to_bbox (poly : polygon) : result (Q * Q * Q * Q) :=
  match poly with
  | [] => Raise ValueError
  | (x, y) :: r =>
      let xs := map fst r in
      let ys := map snd r in
      Ok (min_seq x xs, min_seq y ys, max_seq x xs, max_seq y ys)
  end.

(** Line 52: the condition under [any], on one record of the detector's
    answer for a cropped spot; membership in a list compares by equality
    and accepts any value. *)
Definition legacy_is_car (r : value) : result bool :=
  label <- getitem r "label" ;;
  let listed := match label with
                | VStr l => existsb (String.eqb l) ["car"; "truck"; "bus"]
                | _ => false
                end in
  if listed
  then score <- getitem r "score" ;; gt_num score (5 # 10)
  else Ok false.

Fixpoint legacy_has_car (spot_results : list value) : result bool :=
  match spot_results with
  | [] => Ok false
  | r :: rest =>
      hit <- legacy_is_car r ;;
      if hit then Ok true else legacy_has_car rest
  end.

Section Legacy.

(** The detector of the legacy variant runs on the snapshot cropped to a
    bounding box. *)
Variable image : Type.
Variable detector : image -> Q * Q * Q * Q -> value.

(** Lines 45-54 of [src/v0-app.py]. *)
Fixpoint legacy_detect_occupancy (img : image) (polys : list polygon)
  : result (list bool) :=
  match polys with
  | [] => Ok []
  | poly :: rest =>
      bbox <- polygon_to_bbox poly ;;
      spot_results <- iter (detector img bbox) ;;
      has_car <- legacy_has_car spot_results ;;
      occupied <- legacy_detect_occupancy img rest ;;
      Ok (has_car :: occupied)
  end.

End Legacy.


(** Whether the vertex is strictly below the horizontal line at [cy]. *)
Definition below (cy : Q) (v : point) : bool := Qlt_bool (snd v) cy.

(* ================================================================== *)
(** ** The edges of a polygon *)



(* ================================================================== *)
(** ** [check_overlap] in binary64 arithmetic *)

(** Lines 79-93 once more, with Python's numbers as they are: an [int] of
    any size or a binary64 [float].  Arithmetic on two ints is exact; as
    soon as a float takes part the int operand is converted (rounding to
    nearest even, [OverflowError] beyond the range) and the result is
    rounded; true division always gives a float; comparisons are exact,
    also between an int and a float. *)
Module Binary64.

Definition prec : Z := 53%Z.
Definition emax : Z := 1024%Z.

Inductive number : Type :=
| Int (z : Z)
| Float (f : spec_float).

Definition finite_or_overflow (f : spec_float) : result spec_float :=
  match f with
  | S754_infinity _ => Raise OverflowError
  | _ => Ok f
  end.

(** [float(z)]. *)
Definition of_int (z : Z) : result spec_float :=
  finite_or_overflow (binary_normalize prec emax z 0%Z false).

Definition to_float (a : number) : result spec_float :=
  match a with
  | Int z => of_int z
  | Float f => Ok f
  end.

Definition arith (on_int : Z -> Z -> Z)
           (on_float : spec_float -> spec_float -> spec_float)
           (a b : number) : result number :=
  match a, b with
  | Int x, Int y => Ok (Int (on_int x y))
  | _, _ => x <- to_float a ;; y <- to_float b ;; Ok (Float (on_float x y))
  end.

Definition add : number -> number -> result number :=
  arith Z.add (SFadd prec emax).
Definition sub : number -> number -> result number :=
  arith Z.sub (SFsub prec emax).
Definition mul : number -> number -> result number :=
  arith Z.mul (SFmul prec emax).

(** [x / y] on two ints: the quotient rounded once.  The quotient is taken
    with more than 64 bits and one more bit that records a remainder, which
    is enough for the rounding to 53 bits to be that of the exact value. *)
Definition int_truediv (x y : Z) : result spec_float :=
  if (y =? 0)%Z then Raise ZeroDivisionError
  else
    let negative := xorb (x <? 0)%Z (y <? 0)%Z in
    let ax := Z.abs x in
    let ay := Z.abs y in
    let k := Z.max 0 (64 + Z.log2 ay - Z.log2 ax)%Z in
    let q := (ax * 2 ^ k / ay)%Z in
    let r := ((ax * 2 ^ k) mod ay)%Z in
    let m := (2 * q + (if (r =? 0)%Z then 0 else 1))%Z in
    finite_or_overflow
      (binary_normalize prec emax (if negative then (- m)%Z else m)
                        (- (k + 1))%Z negative).

Definition is_zero (f : spec_float) : bool :=
  match f with
  | S754_zero _ => true
  | _ => false
  end.

Definition truediv (a b : number) : result number :=
  match a, b with
  | Int x, Int y => f <- int_truediv x y ;; Ok (Float f)
  | _, _ =>
      x <- to_float a ;;
      y <- to_float b ;;
      if is_zero y then Raise ZeroDivisionError
      else Ok (Float (SFdiv prec emax x y))
  end.

(** Exact comparison of an int with a float; nothing compares with NaN. *)
Definition compare_int_float (z : Z) (f : spec_float) : option comparison :=
  match f with
  | S754_nan => None
  | S754_infinity negative => Some (if negative then Gt else Lt)
  | S754_zero _ => Some (z ?= 0)%Z
  | S754_finite negative m e =>
      let v := if negative then Zneg m else Zpos m in
      Some (if (0 <=? e)%Z then (z ?= v * 2 ^ e)%Z
            else (z * 2 ^ (- e) ?= v)%Z)
  end.

Definition compare (a b : number) : option comparison :=
  match a, b with
  | Int x, Int y => Some (x ?= y)%Z
  | Float x, Float y => SFcompare x y
  | Int x, Float y => compare_int_float x y
  | Float x, Int y => option_map CompOpp (compare_int_float y x)
  end.

Definition lt (a b : number) : bool :=
  match compare a b with Some Lt => true | _ => false end.
Definition le (a b : number) : bool :=
  match compare a b with Some Lt | Some Eq => true | _ => false end.
Definition eq (a b : number) : bool :=
  match compare a b with Some Eq => true | _ => false end.
Definition ne (a b : number) : bool := negb (eq a b).

Definition pymin (a b : number) : number := if lt b a then b else a.
Definition pymax (a b : number) : number := if lt a b then b else a.

Definition point : Type := (number * number)%type.
Definition polygon : Type := list point.

Record locals : Type := Locals {
  is_inside : bool;
  p1x : number;
  p1y : number;
  x_intersection : option number
}.

(** The guard on line 87. *)
Definition in_band (cx cy a1x a1y a2x a2y : number) : bool :=
  lt (pymin a1y a2y) cy && le cy (pymax a1y a2y) && le cx (pymax a1x a2x).

(** Line 89, operation by operation, left to right. *)
Definition line_89 (cy : number) (st : locals) (p2x p2y : number)
  : result number :=
  dy <- sub cy (p1y st) ;;
  dx <- sub p2x (p1x st) ;;
  product <- mul dy dx ;;
  height <- sub p2y (p1y st) ;;
  quotient <- truediv product height ;;
  add quotient (p1x st).

(** Lines 88-91. *)
Definition crossing_branch (cx cy : number) (st : locals) (p2x p2y : number)
  : result locals :=
  xi <- (if ne (p1y st) p2y
         then v <- line_89 cy st p2x p2y ;; Ok (Some v)
         else Ok (x_intersection st)) ;;
  hit <- (if eq (p1x st) p2x then Ok true
          else match xi with
               | Some v => Ok (le cx v)
               | None => Raise UnboundLocalError
               end) ;;
  Ok {| is_inside := if hit then negb (is_inside st) else is_inside st;
        p1x := p1x st; p1y := p1y st; x_intersection := xi |}.

(** Lines 86-92. *)
Definition loop_body (cx cy : number) (poly : polygon) (st : locals) (i : nat)
  : result locals :=
  j <- mod_ i (List.length poly) ;;
  '(p2x, p2y) <- list_getitem poly j ;;
  st1 <- (if in_band cx cy (p1x st) (p1y st) p2x p2y
          then crossing_branch cx cy st p2x p2y
          else Ok st) ;;
  Ok {| is_inside := is_inside st1; p1x := p2x; p1y := p2y;
        x_intersection := x_intersection st1 |}.

(** Lines 82-93. *)
Definition ray_cast (cx cy : number) (poly : polygon) : result bool :=
  let num_vertices := List.length poly in
  '(p0x, p0y) <- list_getitem poly 0 ;;
  st <- for_each (loop_body cx cy poly) (seq 0 (num_vertices + 1))
          {| is_inside := false; p1x := p0x; p1y := p0y;
             x_intersection := None |} ;;
  Ok (is_inside st).

(** Lines 78-93, the box given by its four coordinates. *)
Definition check_overlap (xmin ymin xmax ymax : number) (poly : polygon)
  : result bool :=
  sx <- add xmin xmax ;;
  cx <- truediv sx (Int 2) ;;
  sy <- add ymin ymax ;;
  cy <- truediv sy (Int 2) ;;
  ray_cast cx cy poly.

(** The float [2.0 ** 54] and the int [2 ** 54 - 1]. *)
Definition two_54 : number := Float (S754_finite false (2 ^ 52) 2).
Definition below_two_54 : number := Int (2 ^ 54 - 1).

End Binary64.

(* ================================================================== *)
(** ** Proof automation *)


(* ================================================================== *)
(** ** Facts about the error monad and the loop combinator *)

Lemma bind_Ok_inv {A B} (m : result A) (k : A -> result B) (b : B) :
  bind m k = Ok b -> exists a, m = Ok a /\ k a = Ok b.
Proof.
  destruct m as [a|e]; simpl; intros H.
  - exists a; split; [reflexivity | exact H].
  - discriminate H.
Qed.

Lemma for_each_app {S I} (body : S -> I -> result S) (xs ys : list I) (st : S) :
  for_each body (xs ++ ys) st = bind (for_each body xs st) (for_each body ys).
Proof.
  revert st; induction xs as [|x xs IH]; intros st; simpl.
  - reflexivity.
  - destruct (body st x) as [st'|e]; simpl; [apply IH | reflexivity].
Qed.

(* ================================================================== *)
(** ** Facts about the comparisons *)

Lemma Qlt_bool_iff (a b : Q) : Qlt_bool a b = true <-> a < b.
Proof.
  unfold Qlt_bool. rewrite negb_true_iff. split.
  - intros H. apply Qnot_le_lt. intros Hle.
    apply Qle_bool_iff in Hle. congruence.
  - intros H. destruct (Qle_bool b a) eqn:E; [|reflexivity].
    apply Qle_bool_iff in E. exfalso. exact (Qlt_not_le _ _ H E).
Qed.

Lemma pymin_Qmin (a b : Q) : pymin a b == Qmin a b.
Proof.
  unfold pymin. destruct (Qlt_bool b a) eqn:E.
  - apply Qlt_bool_iff in E. symmetry. apply Q.min_r. apply Qlt_le_weak, E.
  - symmetry. apply Q.min_l. apply Qnot_lt_le. intros H.
    apply Qlt_bool_iff in H. congruence.
Qed.

Lemma pymax_Qmax (a b : Q) : pymax a b == Qmax a b.
Proof.
  unfold pymax. destruct (Qlt_bool a b) eqn:E.
  - apply Qlt_bool_iff in E. symmetry. apply Q.max_r. apply Qlt_le_weak, E.
  - symmetry. apply Q.max_l. apply Qnot_lt_le. intros H.
    apply Qlt_bool_iff in H. congruence.
Qed.

(** The guard of line 87, read as a proposition on rationals. *)
Lemma in_band_iff (cx cy a1x a1y a2x a2y : Q) :
  in_band cx cy a1x a1y a2x a2y = true <->
  (Qmin a1y a2y < cy /\ cy <= Qmax a1y a2y) /\ cx <= Qmax a1x a2x.
Proof.
  unfold in_band. rewrite !andb_true_iff, Qlt_bool_iff, !Qle_bool_iff.
  rewrite pymin_Qmin, !pymax_Qmax. tauto.
Qed.

(** A horizontal edge never passes the guard: its half-open range is
    empty. *)
Lemma in_band_horizontal (cx cy a1x a1y a2x a2y : Q) :
  a1y == a2y -> in_band cx cy a1x a1y a2x a2y = false.
Proof.
  intros Heq. destruct (in_band cx cy a1x a1y a2x a2y) eqn:E; [|reflexivity].
  apply in_band_iff in E. destruct E as [[Hlo Hhi] _]. exfalso.
  rewrite Heq in Hlo, Hhi.
  rewrite Q.min_id in Hlo. rewrite Q.max_id in Hhi.
  exact (Qlt_not_le _ _ Hlo Hhi).
Qed.

Lemma in_band_not_horizontal (cx cy a1x a1y a2x a2y : Q) :
  in_band cx cy a1x a1y a2x a2y = true ->
  Qeq_bool a1y a2y = false /\ Qeq_bool (a2y - a1y) 0 = false.
Proof.
  intros Hband.
  assert (Hne : ~ a1y == a2y).
  { intros Heq. rewrite (in_band_horizontal cx cy a1x a2x Heq) in Hband.
    discriminate. }
  split.
  - destruct (Qeq_bool a1y a2y) eqn:E; [|reflexivity].
    apply Qeq_bool_iff in E. contradiction.
  - destruct (Qeq_bool (a2y - a1y) 0) eqn:E; [|reflexivity].
    apply Qeq_bool_iff in E. exfalso. apply Hne.
    setoid_replace a2y with ((a2y - a1y) + a1y) by ring.
    rewrite E. ring.
Qed.

(* ================================================================== *)
(** ** The loop of [check_overlap] *)

Lemma crossing_branch_ok (cx cy : Q) (st : locals) (p2x p2y : Q) :
  in_band cx cy (p1x st) (p1y st) p2x p2y = true ->
  crossing_branch cx cy st p2x p2y =
  Ok {| is_inside := xorb (is_inside st)
                          (x_test cx cy (p1x st, p1y st) (p2x, p2y));
        p1x := p1x st; p1y := p1y st;
        x_intersection := Some (x_at cy (p1x st, p1y st) (p2x, p2y)) |}.
Proof.
  intros Hband. apply in_band_not_horizontal in Hband as [Hy Hd].
  unfold crossing_branch, truediv, x_test, x_at. simpl.
  rewrite Hy, Hd. simpl.
  destruct (Qeq_bool (p1x st) p2x); simpl.
  - rewrite xorb_true_r. reflexivity.
  - destruct (Qle_bool cx _); simpl;
      [rewrite xorb_true_r | rewrite xorb_false_r]; reflexivity.
Qed.

(** One iteration never raises: it toggles the flag exactly when the edge
    from the previous vertex to the current one passes the test, and it
    assigns [x_intersection] whenever the guard holds. *)
Lemma loop_body_ok (cx cy : Q) (poly : polygon) (st : locals) (i : nat)
      (p2 : point) :
  nth_error poly (i mod List.length poly) = Some p2 ->
  loop_body cx cy poly st i =
  Ok {| is_inside := xorb (is_inside st)
                          (edge_toggles cx cy (p1x st, p1y st) p2);
        p1x := fst p2; p1y := snd p2;
        x_intersection :=
          if in_band cx cy (p1x st) (p1y st) (fst p2) (snd p2)
          then Some (x_at cy (p1x st, p1y st) p2)
          else x_intersection st |}.
Proof.
  intros Hnth. destruct p2 as [p2x p2y].
  unfold loop_body, mod_, list_getitem.
  destruct (List.length poly) as [|n] eqn:Hlen.
  - destruct poly; [|discriminate Hlen].
    destruct (i mod 0)%nat; discriminate Hnth.
  - cbv beta iota delta [bind]. rewrite Hnth. simpl bind. unfold edge_toggles. simpl fst. simpl snd.
    destruct (in_band cx cy (p1x st) (p1y st) p2x p2y) eqn:Hband.
    + rewrite (crossing_branch_ok _ _ _ _ _ Hband). simpl. reflexivity.
    + simpl. rewrite xorb_false_r. reflexivity.
Qed.

Lemma parity_upto_S (cx cy : Q) (poly : polygon) (k : nat) :
  parity_upto cx cy poly (S k) =
  xorb (parity_upto cx cy poly k)
       (edge_toggles cx cy (nth k poly (0, 0))
                     (nth ((k + 1) mod List.length poly) poly (0, 0))).
Proof.
  unfold parity_upto. rewrite seq_S, fold_left_app. reflexivity.
Qed.

Lemma nth_error_mod (poly : polygon) (i : nat) :
  poly <> [] ->
  nth_error poly (i mod List.length poly)
  = Some (nth (i mod List.length poly) poly (0, 0)).
Proof.
  intros Hne. apply nth_error_nth'.
  apply Nat.mod_upper_bound. destruct poly; [contradiction | discriminate].
Qed.

(** After the iterations [0 .. k] of the loop ([k <= num_vertices]) the
    flag is the parity of the first [k] edges and the previous vertex is
    vertex [k mod num_vertices]. *)
Lemma loop_invariant (cx cy : Q) (poly : polygon) (k : nat) :
  poly <> [] -> (k <= List.length poly)%nat ->
  exists st,
    for_each (loop_body cx cy poly) (seq 0 (k + 1))
             {| is_inside := false;
                p1x := fst (nth 0 poly (0, 0)); p1y := snd (nth 0 poly (0, 0));
                x_intersection := None |} = Ok st
    /\ is_inside st = parity_upto cx cy poly k
    /\ (p1x st, p1y st) = nth (k mod List.length poly) poly (0, 0).
Proof.
  intros Hne. induction k as [|k IH]; intros Hk.
  - simpl. rewrite (loop_body_ok cx cy poly _ 0 (nth_error_mod 0 Hne)).
    simpl. eexists. split; [reflexivity|]. simpl. split.
    + unfold edge_toggles. simpl.
      rewrite in_band_horizontal.
      * reflexivity.
      * rewrite Nat.Div0.mod_0_l. reflexivity.
    + symmetry. apply surjective_pairing.
  - destruct IH as (st & Hrun & Hin & Hp1); [lia|].
    replace (S k + 1)%nat with (S (k + 1)) by lia.
    rewrite seq_S, for_each_app, Hrun. simpl.
    rewrite (loop_body_ok cx cy poly st _ (nth_error_mod (k + 1) Hne)).
    simpl. eexists. split; [reflexivity|]. simpl. split.
    + rewrite parity_upto_S, Hin.
      rewrite Nat.mod_small in Hp1 by lia.
      replace (p1x st, p1y st) with (nth k poly (0, 0)). reflexivity.
    + replace (k + 1)%nat with (S k) by lia. symmetry. apply surjective_pairing.
Qed.

Lemma ray_cast_refines (cx cy : Q) (poly : polygon) :
  poly <> [] -> ray_cast cx cy poly = Ok (ray_cast_edges cx cy poly).
Proof.
  intros Hne.
  destruct (loop_invariant cx cy (k := List.length poly) Hne (Nat.le_refl _))
    as (st & Hrun & Hin & _).
  unfold ray_cast, list_getitem.
  destruct poly as [|[p0x p0y] rest]; [contradiction|].
  change (nth_error ((p0x, p0y) :: rest) 0) with (Some (p0x, p0y)).
  cbn [nth fst snd] in Hrun. cbv beta iota delta [bind].
  rewrite Hrun. rewrite Hin. reflexivity.
Qed.

Lemma ray_cast_total (cx cy : Q) (poly : polygon) :
  poly <> [] -> exists b, ray_cast cx cy poly = Ok b.
Proof.
  intros Hne. eexists. apply ray_cast_refines, Hne.
Qed.

Lemma nonempty_of_length (poly : polygon) (k : nat) :
  (S k <= List.length poly)%nat -> poly <> [].
Proof.
  intros H ->. simpl in H. lia.
Qed.

(** C9.  On a polygon with at least one vertex the loop of
    [num_vertices + 1] iterations computes the ray-cast fold over the
    [num_vertices] edges (vertex [j] to vertex [(j + 1) mod num_vertices]);
    its first iteration pairs vertex 0 with itself and leaves the flag
    untouched. *)
Theorem check_overlap_loop_is_edge_fold (cx cy : Q) (poly : polygon) :
  (1 <= List.length poly)%nat ->
  ray_cast cx cy poly = Ok (ray_cast_edges cx cy poly)
  /\ (forall box, box_center box = Ok (cx, cy) ->
       check_overlap box poly = Ok (ray_cast_edges cx cy poly))
  /\ (forall p0 xi, nth_error poly 0 = Some p0 ->
       exists st',
         loop_body cx cy poly
                   {| is_inside := false; p1x := fst p0; p1y := snd p0;
                      x_intersection := xi |} 0 = Ok st'
         /\ is_inside st' = false /\ x_intersection st' = xi
         /\ (p1x st', p1y st') = p0).
Proof.
  intros Hlen. pose proof (nonempty_of_length Hlen) as Hne.
  split; [|split].
  - apply ray_cast_refines, Hne.
  - intros box Hbox. unfold check_overlap. rewrite Hbox. simpl.
    apply ray_cast_refines, Hne.
  - intros p0 xi Hp0.
    assert (Hnth : nth_error poly (0 mod List.length poly) = Some p0).
    { rewrite Nat.Div0.mod_0_l. exact Hp0. }
    rewrite (loop_body_ok cx cy poly _ 0 Hnth). eexists.
    split; [reflexivity|]. simpl. unfold edge_toggles. simpl.
    rewrite in_band_horizontal by reflexivity. simpl.
    repeat split. symmetry. apply surjective_pairing.
Qed.

(* ================================================================== *)
(** ** The vehicle filter *)





Lemma qualifies_iff (obj : value) :
  qualifies obj = true <->
  exists l s, label_of obj = Some l /\ score_of obj = Some s
              /\ In l vehicle_labels /\ min_score < s.
Proof.
  unfold qualifies. split.
  - destruct (label_of obj) as [l|]; [|discriminate].
    destruct (score_of obj) as [s|]; [|discriminate].
    rewrite andb_true_iff, Qlt_bool_iff, existsb_exists.
    intros [(l' & Hin & Heq) Hs]. apply String.eqb_eq in Heq. subst l'.
    exists l, s. auto.
  - intros (l & s & -> & -> & Hin & Hs).
    rewrite andb_true_iff, Qlt_bool_iff, existsb_exists. split; [|exact Hs].
    exists l. split; [exact Hin | apply String.eqb_refl].
Qed.

(** Dropping a record on which the condition is false changes nothing,
    whatever surrounds it. *)
Lemma detected_vehicles_skip (pre post : list value) (obj : value) :
  is_vehicle obj = Ok false ->
  detected_vehicles (pre ++ obj :: post) = detected_vehicles (pre ++ post).
Proof.
  intros Hobj. induction pre as [|x pre IH]; simpl.
  - rewrite Hobj. simpl. destruct (detected_vehicles post); reflexivity.
  - rewrite IH. reflexivity.
Qed.

(** C10.  A dict with a vehicle label and no score is judged as if its
    score were 0: the condition is false, without raising, and the record
    is left out wherever it stands in the list. *)
Theorem missing_score_is_excluded (d : list (string * value)) (l : string) :
  lookup "label" d = Some (VStr l) ->
  In l vehicle_labels ->
  lookup "score" d = None ->
  is_vehicle (VDict d) = Ok false
  /\ is_vehicle (VDict d) = is_vehicle (VDict (("score", VNum 0) :: d))
  /\ (forall pre post,
        detected_vehicles (pre ++ VDict d :: post)
        = detected_vehicles (pre ++ post)).
Proof.
  intros Hl Hin Hs.
  assert (H0 : is_vehicle (VDict d) = Ok false).
  { unfold is_vehicle, dict_get, dict_get_default. rewrite Hl, Hs.
    cbn [bind in_str_set].
    destruct (existsb (String.eqb l) vehicle_labels); reflexivity. }
  split; [exact H0|]. split.
  - rewrite H0. unfold is_vehicle, dict_get, dict_get_default.
    change (lookup "label" (("score", VNum 0) :: d)) with (lookup "label" d).
    change (lookup "score" (("score", VNum 0) :: d)) with (Some (VNum 0)).
    rewrite Hl. cbn [bind in_str_set].
    destruct (existsb (String.eqb l) vehicle_labels); reflexivity.
  - intros pre post. apply detected_vehicles_skip, H0.
Qed.

(* ================================================================== *)
(** ** The occupancy resolver *)







(** C4.  When the filter leaves no vehicle, the resolver answers with one
    [false] per polygon and calls the containment test not once; the
    polygons are not looked at, whatever they are. *)
Theorem no_vehicle_fast_path (objs : list value) (polys : list polygon) :
  detected_vehicles objs = Ok [] ->
  resolve (VList objs) polys = Ok (repeat false (List.length polys))
  /\ resolve_traced (VList objs) polys
     = Ok (repeat false (List.length polys), O)
  /\ List.length (repeat false (List.length polys)) = List.length polys
  /\ Forall (fun occupied => occupied = false)
            (repeat false (List.length polys)).
Proof.
  intros Hnone.
  assert (Ht : resolve_traced (VList objs) polys
               = Ok (repeat false (List.length polys), O)).
  { unfold resolve_traced. cbn [iter bind]. rewrite Hnone. reflexivity. }
  split; [unfold resolve; rewrite Ht; reflexivity|].
  split; [exact Ht|]. split; [apply repeat_length|].
  apply Forall_forall. intros b Hb. apply repeat_spec in Hb. exact Hb.
Qed.


(** C1, at the failing input.  A record with a vehicle label and a passing
    score but no box is kept by the filter, and the resolver then raises
    [KeyError] on it.  Records of other wrong shapes raise as well: a box
    that is not an object, a score that is not a number, a label that is a
    list.  Entries that are not dicts are skipped. *)
Theorem boxless_vehicle_record_raises :
  detected_vehicles [Sample.boxless "car" (9 # 10)]
  = Ok [Sample.boxless "car" (9 # 10)]
  /\ resolve (VList [Sample.boxless "car" (9 # 10)]) [Sample.triangle]
     = Raise KeyError
  /\ resolve (VList [VDict [("label", VStr "car"); ("score", VNum (9 # 10));
                            ("box", VNone)]]) [Sample.triangle]
     = Raise TypeError
  /\ resolve (VList [VDict [("label", VStr "car"); ("score", VStr "high")]])
             [Sample.triangle]
     = Raise TypeError
  /\ resolve (VList [VDict [("label", VList [VStr "car"])]]) [Sample.triangle]
     = Raise TypeError
  /\ resolve (VList [VStr "error"; VNone; VNum 3; VList []]) [Sample.triangle]
     = Ok [false].
Proof.
  repeat split; reflexivity.
Qed.

(* ================================================================== *)
(** ** The status aggregator *)

Lemma lookup_not_in {V} (k : string) (d : list (string * V)) :
  ~ In k (map fst d) -> lookup k d = None.
Proof.
  induction d as [|[k' v] d IH]; simpl; intros Hnin.
  - reflexivity.
  - destruct (String.eqb_spec k k') as [->|Hne].
    + exfalso. apply Hnin. left. reflexivity.
    + apply IH. intros Hin. apply Hnin. right. exact Hin.
Qed.

Lemma lookup_app {V} (k : string) (a b : list (string * V)) :
  lookup k (a ++ b)
  = match lookup k a with Some v => Some v | None => lookup k b end.
Proof.
  induction a as [|[k' v] a IH]; simpl.
  - reflexivity.
  - destruct (String.eqb k k'); [reflexivity | exact IH].
Qed.

Lemma dict_set_fresh {V} (k : string) (v : V) (d : list (string * V)) :
  ~ In k (map fst d) -> dict_set k v d = d ++ [(k, v)].
Proof.
  induction d as [|[k' v'] d IH]; simpl; intros Hnin.
  - reflexivity.
  - destruct (String.eqb_spec k k') as [->|Hne].
    + exfalso. apply Hnin. left. reflexivity.
    + rewrite IH; [reflexivity|]. intros Hin. apply Hnin. right. exact Hin.
Qed.

Section AggregatorFacts.

Variable image : Type.
Variable fetch : Z -> result (option image).
Variable detect : image -> result value.
Variable int_of_str : string -> option Z.

Lemma camera_step_entry (status : list (string * list bool))
      (cam_str : string) (data : camera_data) :
  camera_step fetch detect int_of_str status (cam_str, data)
  = bind (camera_entry fetch detect int_of_str cam_str data)
         (fun v => Ok (dict_set cam_str v status)).
Proof.
  unfold camera_step, camera_entry.
  destruct (cam_number int_of_str cam_str) as [n|e]; [|reflexivity].
  cbn [bind].
  destruct (match polygons data with Some p => p | None => [] end);
    [reflexivity|].
  destruct (fetch n) as [[img|]|e]; reflexivity.
Qed.

Lemma entries_keys (items : list (string * camera_data))
      (es : list (string * list bool)) :
  entries fetch detect int_of_str items = Ok es ->
  map fst es = map fst items.
Proof.
  revert es. induction items as [|[k d] items IH]; simpl; intros es H.
  - injection H as <-. reflexivity.
  - apply bind_Ok_inv in H as (v & _ & H).
    apply bind_Ok_inv in H as (rest & Hrest & H).
    injection H as <-. simpl. f_equal. apply IH, Hrest.
Qed.

Lemma entries_app (a b : list (string * camera_data)) :
  entries fetch detect int_of_str (a ++ b)
  = bind (entries fetch detect int_of_str a)
         (fun ea => bind (entries fetch detect int_of_str b)
                         (fun eb => Ok (ea ++ eb))).
Proof.
  induction a as [|[k d] a IH]; simpl.
  - destruct (entries fetch detect int_of_str b); reflexivity.
  - destruct (camera_entry fetch detect int_of_str k d) as [v|e];
      [|reflexivity].
    cbn [bind]. rewrite IH.
    destruct (entries fetch detect int_of_str a) as [ea|e]; [|reflexivity].
    cbn [bind].
    destruct (entries fetch detect int_of_str b); reflexivity.
Qed.

(** The loop over a dict with distinct keys appends one entry per camera,
    in order. *)
Lemma for_each_camera_step (items : list (string * camera_data))
      (status : list (string * list bool)) :
  NoDup (map fst status ++ map fst items) ->
  for_each (camera_step fetch detect int_of_str) items status
  = bind (entries fetch detect int_of_str items)
         (fun es => Ok (status ++ es)).
Proof.
  revert status. induction items as [|[k d] items IH]; intros status Hnd.
  - simpl. rewrite app_nil_r. reflexivity.
  - cbn [for_each entries]. rewrite camera_step_entry.
    destruct (camera_entry fetch detect int_of_str k d) as [v|e];
      [|reflexivity].
    cbn [bind]. simpl map in Hnd.
    assert (Hfresh : ~ In k (map fst status)).
    { apply NoDup_remove_2 in Hnd. intros Hin. apply Hnd.
      apply in_or_app. left. exact Hin. }
    rewrite (@dict_set_fresh _ k v status Hfresh). rewrite IH.
    + destruct (entries fetch detect int_of_str items) as [es|e];
        [|reflexivity].
      cbn [bind]. rewrite <- app_assoc. reflexivity.
    + rewrite map_app, <- app_assoc. exact Hnd.
Qed.

Lemma run_status_check_entries (items : list (string * camera_data)) :
  NoDup (map fst items) ->
  run_status_check fetch detect int_of_str items
  = entries fetch detect int_of_str items.
Proof.
  intros Hnd. unfold run_status_check.
  rewrite for_each_camera_step by exact Hnd.
  destruct (entries fetch detect int_of_str items); reflexivity.
Qed.

(** A cycle over [pre ++ item :: post] completes as soon as the cycle
    over [pre ++ post] does and the camera of [item] has an entry; its
    status is that of the shorter cycle with the entry put in place. *)
Lemma run_status_check_insert
      (pre post : list (string * camera_data)) (cam_str : string)
      (data : camera_data) (v : list bool)
      (rest_status : list (string * list bool)) :
  NoDup (map fst (pre ++ (cam_str, data) :: post)) ->
  camera_entry fetch detect int_of_str cam_str data = Ok v ->
  run_status_check fetch detect int_of_str (pre ++ post) = Ok rest_status ->
  exists status,
    run_status_check fetch detect int_of_str (pre ++ (cam_str, data) :: post)
    = Ok status
    /\ map fst status = map fst (pre ++ (cam_str, data) :: post)
    /\ lookup cam_str status = Some v
    /\ (forall k, k <> cam_str -> lookup k status = lookup k rest_status).
Proof.
  intros Hnd Hentry Hrest.
  assert (Hnd' : NoDup (map fst (pre ++ post))).
  { rewrite map_app in *. simpl in Hnd. apply NoDup_remove_1 in Hnd.
    exact Hnd. }
  assert (Hfresh : ~ In cam_str (map fst pre)).
  { rewrite map_app in Hnd. simpl in Hnd. apply NoDup_remove_2 in Hnd.
    intros Hin. apply Hnd, in_or_app. left. exact Hin. }
  rewrite run_status_check_entries in Hrest by exact Hnd'.
  rewrite entries_app in Hrest.
  apply bind_Ok_inv in Hrest as (ea & Ha & Hrest).
  apply bind_Ok_inv in Hrest as (eb & Hb & Hrest).
  injection Hrest as <-.
  exists (ea ++ (cam_str, v) :: eb).
  assert (Hrun : entries fetch detect int_of_str
                         (pre ++ (cam_str, data) :: post)
                 = Ok (ea ++ (cam_str, v) :: eb)).
  { rewrite entries_app, Ha. cbn [bind entries]. rewrite Hentry, Hb.
    reflexivity. }
  split; [rewrite run_status_check_entries by exact Hnd; exact Hrun|].
  split; [apply entries_keys, Hrun|]. split.
  - rewrite lookup_app, lookup_not_in.
    + simpl. rewrite String.eqb_refl. reflexivity.
    + rewrite (entries_keys _ Ha). exact Hfresh.
  - intros k Hk. rewrite !lookup_app. simpl.
    destruct (String.eqb_spec k cam_str) as [->|_]; [contradiction|].
    reflexivity.
Qed.

(** The entry of a camera depends on the image source only through that
    camera's number. *)
Lemma camera_entry_fetch_ext (fetch' : Z -> result (option image)) (cam_str : string)
      (data : camera_data) (m : Z) :
  cam_number int_of_str cam_str = Ok m ->
  fetch' m = fetch m ->
  camera_entry fetch' detect int_of_str cam_str data
  = camera_entry fetch detect int_of_str cam_str data.
Proof.
  intros Hm Hf. unfold camera_entry. rewrite Hm. cbn [bind].
  rewrite Hf. reflexivity.
Qed.

Lemma entries_lookup_ext (fetch' : Z -> result (option image)) (n : Z)
      (items : list (string * camera_data))
      (es es' : list (string * list bool)) :
  (forall m, m <> n -> fetch' m = fetch m) ->
  entries fetch' detect int_of_str items = Ok es' ->
  entries fetch detect int_of_str items = Ok es ->
  forall k m, cam_number int_of_str k = Ok m -> m <> n ->
              lookup k es' = lookup k es.
Proof.
  intros Hagree. revert es es'.
  induction items as [|[k0 d0] items IH]; simpl; intros es es' H' H k m Hm Hne.
  - injection H as <-. injection H' as <-. reflexivity.
  - apply bind_Ok_inv in H as (v & Hv & H).
    apply bind_Ok_inv in H as (r & Hr & H). injection H as <-.
    apply bind_Ok_inv in H' as (v' & Hv' & H').
    apply bind_Ok_inv in H' as (r' & Hr' & H'). injection H' as <-.
    simpl. destruct (String.eqb_spec k k0) as [->|_].
    + rewrite (@camera_entry_fetch_ext fetch' k0 d0 m Hm (Hagree m Hne)) in Hv'.
      congruence.
    + exact (IH r r' Hr' Hr k m Hm Hne).
Qed.

End AggregatorFacts.

(** X25.  When [fetch_cam_image] returns [None] for the camera [cam_str],
    which has at least one polygon, and the other cameras complete, the
    cycle completes with one entry per configured camera, the entry of
    [cam_str] is one [false] per polygon, and the entries of the other
    cameras are those of the cycle without [cam_str] and also those of any
    cycle in which the fetch of [cam_str] had not failed. *)
Theorem acquisition_failure_is_isolated
        (image : Type) (fetch : Z -> result (option image))
        (detect : image -> result value)
        (int_of_str : string -> option Z)
        (pre post : list (string * camera_data)) (cam_str : string)
        (data : camera_data) (n : Z) (polys : list polygon)
        (rest_status : list (string * list bool)) :
  NoDup (map fst (pre ++ (cam_str, data) :: post)) ->
  cam_number int_of_str cam_str = Ok n ->
  polygons data = Some polys ->
  polys <> [] ->
  fetch n = Ok None ->
  run_status_check fetch detect int_of_str (pre ++ post) = Ok rest_status ->
  exists status,
    run_status_check fetch detect int_of_str (pre ++ (cam_str, data) :: post)
    = Ok status
    /\ map fst status = map fst (pre ++ (cam_str, data) :: post)
    /\ lookup cam_str status = Some (repeat false (List.length polys))
    /\ (forall k, k <> cam_str -> lookup k status = lookup k rest_status)
    /\ (forall (fetch' : Z -> result (option image)) status',
          (forall m, m <> n -> fetch' m = fetch m) ->
          run_status_check fetch' detect int_of_str
                           (pre ++ (cam_str, data) :: post) = Ok status' ->
          forall k m, cam_number int_of_str k = Ok m -> m <> n ->
                      lookup k status' = lookup k status).
Proof.
  intros Hnd Hnum Hpolys Hne Hfail Hrest.
  assert (Hentry : camera_entry fetch detect int_of_str cam_str data
                   = Ok (repeat false (List.length polys))).
  { unfold camera_entry. rewrite Hnum, Hpolys. cbn [bind].
    destruct polys as [|p ps]; [contradiction|]. rewrite Hfail. reflexivity. }
  destruct (@run_status_check_insert image fetch detect int_of_str pre post cam_str data _ rest_status Hnd Hentry Hrest)
    as (status & Hrun & Hkeys & Hown & Hothers).
  exists status. repeat (split; [assumption|]).
  intros fetch' status' Hagree Hrun' k m Hm Hmn.
  rewrite run_status_check_entries in Hrun, Hrun' by exact Hnd.
  exact (@entries_lookup_ext image fetch detect int_of_str fetch' n _ status status' Hagree Hrun' Hrun k m Hm Hmn).
Qed.


(* ================================================================== *)
(** ** The statements at sample inputs *)

(** One car centred in the third of four spots: [[false; false; true; false]]. *)
Example resolve_one_car_in_third_spot :
  resolve (VList [Sample.record "car" (9 # 10) 22 2 28 8;
                  Sample.record "person" (99 # 100) 2 2 8 8])
          Sample.row
  = Ok [false; false; true; false].
Proof. reflexivity. Qed.

(** Points on the boundary of an axis-aligned square: the left and bottom
    edges are outside, the right and top edges inside. *)
Example square_boundary :
  map (fun p => ray_cast (fst p) (snd p) (Sample.square 0 0 10))
      [(5, 5); (0, 5); (10, 5); (5, 0); (5, 10); (15, 5)]
  = [Ok true; Ok false; Ok true; Ok false; Ok true; Ok false].
Proof. reflexivity. Qed.

(** The empty polygon is the one input on which the loop raises. *)
Example empty_polygon_raises : ray_cast 5 5 [] = Raise IndexError.
Proof. reflexivity. Qed.

Lemma check_overlap_loop_is_edge_fold_witness :
  (1 <= List.length (Sample.square 0 0 10))%nat
  /\ ray_cast 5 5 (Sample.square 0 0 10)
     = Ok (ray_cast_edges 5 5 (Sample.square 0 0 10)).
Proof.
  assert (H : (1 <= List.length (Sample.square 0 0 10))%nat)
    by (apply Nat.leb_le; reflexivity).
  split; [exact H|].
  exact (proj1 (@check_overlap_loop_is_edge_fold 5 5 (Sample.square 0 0 10) H)).
Defined.

Lemma missing_score_is_excluded_witness :
  is_vehicle (VDict Sample.scoreless) = Ok false.
Proof.
  refine (proj1 (@missing_score_is_excluded Sample.scoreless "truck" _ _ _)).
  - reflexivity.
  - right. left. reflexivity.
  - reflexivity.
Defined.

Lemma no_vehicle_fast_path_witness :
  resolve (VList [Sample.record "person" (99 # 100) 2 2 8 8;
                  Sample.record "car" (7 # 10) 2 2 8 8])
          [Sample.triangle; []; Sample.square 0 0 10; []; Sample.triangle]
  = Ok [false; false; false; false; false].
Proof.
  refine (proj1 (@no_vehicle_fast_path
                   [Sample.record "person" (99 # 100) 2 2 8 8;
                    Sample.record "car" (7 # 10) 2 2 8 8]
                   [Sample.triangle; []; Sample.square 0 0 10; [];
                    Sample.triangle] _)).
  reflexivity.
Defined.


Lemma sample_keys_distinct :
  NoDup (map fst ([("cam3", Sample.cam3)]
                  ++ ("cam1", Sample.cam1) :: [("cam2", Sample.cam2)])).
Proof.
  apply NoDup_cons; [intros [H|[H|[]]]; discriminate H|].
  apply NoDup_cons; [intros [H|[]]; discriminate H|].
  apply NoDup_cons; [intros []|]. apply NoDup_nil.
Defined.

Lemma acquisition_failure_is_isolated_witness :
  exists status,
    run_status_check Sample.fetch Sample.detect Sample.int_of_str
                     [("cam3", Sample.cam3); ("cam1", Sample.cam1);
                      ("cam2", Sample.cam2)] = Ok status
    /\ lookup "cam1" status = Some [false; false]
    /\ lookup "cam2" status = Some [false; false; true; false].
Proof.
  destruct (@acquisition_failure_is_isolated
              nat Sample.fetch Sample.detect Sample.int_of_str
              [("cam3", Sample.cam3)] [("cam2", Sample.cam2)]
              "cam1" Sample.cam1 1%Z [Sample.triangle; Sample.square 0 0 10]
              [("cam3", []); ("cam2", [false; false; true; false])])
    as (status & Hrun & _ & Hown & Hothers & _).
  - exact sample_keys_distinct.
  - reflexivity.
  - reflexivity.
  - discriminate.
  - reflexivity.
  - reflexivity.
  - exists status. split; [exact Hrun|]. split; [exact Hown|].
    rewrite Hothers by discriminate. reflexivity.
Defined.



(* ================================================================== *)
(** ** Shape and cost of the resolver's answer *)

Lemma any_overlap_calls (vehicles : list value) (poly : polygon)
      (b : bool) (n : nat) :
  any_overlap vehicles poly = Ok (b, n) -> (n <= List.length vehicles)%nat.
Proof.
  revert b n. induction vehicles as [|v vs IH]; intros b n H.
  - simpl in H. injection H as _ <-. apply Nat.le_refl.
  - cbn [any_overlap] in H.
    apply bind_Ok_inv in H as (box & _ & H).
    apply bind_Ok_inv in H as (hit & _ & H).
    destruct hit.
    + injection H as _ <-. simpl. lia.
    + apply bind_Ok_inv in H as ([b' n'] & Hrec & H).
      injection H as _ <-. apply IH in Hrec. simpl. lia.
Qed.

Lemma occupied_status_shape (vehicles : list value) (polys : list polygon)
      (status : list bool) (n : nat) :
  occupied_status vehicles polys = Ok (status, n) ->
  List.length status = List.length polys
  /\ (n <= List.length vehicles * List.length polys)%nat.
Proof.
  revert status n. induction polys as [|poly polys IH]; intros status n H.
  - simpl in H. injection H as <- <-. split; [reflexivity | lia].
  - cbn [occupied_status] in H.
    apply bind_Ok_inv in H as ([b k] & Hany & H).
    apply bind_Ok_inv in H as ([rest m] & Hrec & H).
    injection H as <- <-. apply any_overlap_calls in Hany.
    destruct (IH _ _ Hrec) as [Hlen Hm]. simpl. split; [lia | nia].
Qed.

Lemma detected_vehicles_length (objs vehicles : list value) :
  detected_vehicles objs = Ok vehicles ->
  (List.length vehicles <= List.length objs)%nat.
Proof.
  revert vehicles. induction objs as [|obj objs IH]; intros vehicles H.
  - simpl in H. injection H as <-. apply Nat.le_refl.
  - cbn [detected_vehicles] in H.
    apply bind_Ok_inv in H as (keep & _ & H).
    apply bind_Ok_inv in H as (rest & Hrest & H).
    injection H as <-. apply IH in Hrest. destruct keep; simpl; lia.
Qed.

Lemma resolve_traced_length
      (all_detected_objects : value) (polys : list polygon)
      (status : list bool) (n : nat) :
  resolve_traced all_detected_objects polys = Ok (status, n) ->
  List.length status = List.length polys.
Proof.
  unfold resolve_traced. intros H.
  apply bind_Ok_inv in H as (objs & _ & H).
  apply bind_Ok_inv in H as (vehicles & _ & H).
  destruct vehicles as [|v vs].
  - injection H as <- _. apply repeat_length.
  - apply occupied_status_shape in H. apply H.
Qed.

(** X1.  Whenever the resolver returns, it returns one boolean per polygon,
    whatever the detector answered. *)
Theorem resolve_one_entry_per_polygon
        (all_detected_objects : value) (polys : list polygon)
        (status : list bool) :
  resolve all_detected_objects polys = Ok status ->
  List.length status = List.length polys.
Proof.
  unfold resolve. intros H.
  apply bind_Ok_inv in H as ([st n] & H & Hfst).
  injection Hfst as <-. cbn [fst].
  exact (resolve_traced_length _ _ H).
Qed.

(** X2.  The containment test runs at most once per kept vehicle and polygon,
    and the kept vehicles are no more than the detector's records. *)
Theorem resolve_containment_calls_bounded
        (objs : list value) (polys : list polygon)
        (status : list bool) (calls : nat) :
  resolve_traced (VList objs) polys = Ok (status, calls) ->
  exists vehicles,
    detected_vehicles objs = Ok vehicles
    /\ (List.length vehicles <= List.length objs)%nat
    /\ (calls <= List.length vehicles * List.length polys)%nat.
Proof.
  unfold resolve_traced. cbn [iter bind]. intros H.
  apply bind_Ok_inv in H as (vehicles & Hf & H).
  exists vehicles. split; [exact Hf|].
  split; [apply detected_vehicles_length, Hf|].
  destruct vehicles as [|v vs].
  - injection H as _ <-. lia.
  - apply occupied_status_shape in H. apply H.
Qed.

Lemma detected_vehicles_strings (names : list string) :
  detected_vehicles (map VStr names) = Ok [].
Proof.
  induction names as [|s names IH]; simpl.
  - reflexivity.
  - rewrite IH. reflexivity.
Qed.

Lemma chars_strings (s : string) : exists names, chars s = map VStr names.
Proof.
  induction s as [|c s [names IH]].
  - exists []. reflexivity.
  - exists (String c EmptyString :: names). simpl. rewrite IH. reflexivity.
Qed.

(** X3.  An answer of the detector that is not a list: a JSON object (an error
    payload) or a string is walked key by key or character by character
    and leaves every spot free; a number, a boolean or null cannot be
    walked and makes the resolver raise [TypeError]. *)
Theorem resolve_answer_not_a_list (polys : list polygon) :
  (forall d, resolve (VDict d) polys = Ok (repeat false (List.length polys)))
  /\ (forall s, resolve (VStr s) polys = Ok (repeat false (List.length polys)))
  /\ (forall q, resolve (VNum q) polys = Raise TypeError)
  /\ (forall b, resolve (VBool b) polys = Raise TypeError)
  /\ resolve VNone polys = Raise TypeError.
Proof.
  split; [|split; [|repeat split]].
  - intros d. unfold resolve, resolve_traced. cbn [iter bind].
    rewrite <- (map_map fst VStr), detected_vehicles_strings. reflexivity.
  - intros s. unfold resolve, resolve_traced. cbn [iter bind].
    destruct (chars_strings s) as [names ->].
    rewrite detected_vehicles_strings. reflexivity.
Qed.

(* ================================================================== *)
(** ** Shape of the status map *)

Lemma lookup_in_nodup {V} (k : string) (v : V) (d : list (string * V)) :
  NoDup (map fst d) -> In (k, v) d -> lookup k d = Some v.
Proof.
  induction d as [|[k' v'] d IH]; simpl; intros Hnd Hin; [contradiction|].
  apply NoDup_cons_iff in Hnd as [Hfresh Hnd].
  destruct Hin as [Heq|Hin].
  - injection Heq as -> ->. rewrite String.eqb_refl. reflexivity.
  - destruct (String.eqb_spec k k') as [->|_].
    + exfalso. apply Hfresh. apply (in_map fst) in Hin. exact Hin.
    + apply IH; assumption.
Qed.

Lemma camera_entry_length
      (image : Type) (fetch : Z -> result (option image))
        (detect : image -> result value)
      (int_of_str : string -> option Z) (cam_str : string)
      (data : camera_data) (v : list bool) :
  camera_entry fetch detect int_of_str cam_str data = Ok v ->
  List.length v = List.length (polygons_of data).
Proof.
  unfold camera_entry, polygons_of. intros H.
  apply bind_Ok_inv in H as (n & _ & H).
  destruct (match polygons data with Some p => p | None => [] end)
    as [|p ps] eqn:E.
  - injection H as <-. reflexivity.
  - apply bind_Ok_inv in H as ([img|] & _ & H).
    + unfold detect_occupancy in H.
      apply bind_Ok_inv in H as (answer & _ & H). unfold resolve in H.
      apply bind_Ok_inv in H as ([st k] & H & Hfst).
      injection Hfst as <-. exact (resolve_traced_length _ _ H).
    + injection H as <-. simpl. rewrite repeat_length. reflexivity.
Qed.

Lemma entries_forall2
      (image : Type) (fetch : Z -> result (option image))
        (detect : image -> result value)
      (int_of_str : string -> option Z)
      (items : list (string * camera_data)) (es : list (string * list bool)) :
  entries fetch detect int_of_str items = Ok es ->
  Forall2 (fun item e =>
             fst e = fst item
             /\ camera_entry fetch detect int_of_str (fst item) (snd item)
                = Ok (snd e))
          items es.
Proof.
  revert es. induction items as [|[k d] items IH]; simpl; intros es H.
  - injection H as <-. constructor.
  - apply bind_Ok_inv in H as (v & Hv & H).
    apply bind_Ok_inv in H as (rest & Hrest & H). injection H as <-.
    constructor; [split; [reflexivity | exact Hv] | apply IH, Hrest].
Qed.

Lemma entries_shape
      (image : Type) (fetch : Z -> result (option image))
        (detect : image -> result value)
      (int_of_str : string -> option Z)
      (items : list (string * camera_data)) (es : list (string * list bool)) :
  entries fetch detect int_of_str items = Ok es ->
  Forall2 (fun item e =>
             fst e = fst item
             /\ List.length (snd e) = List.length (polygons_of (snd item)))
          items es.
Proof.
  intros H. apply entries_forall2 in H.
  induction H as [|item e items es [Hk Hv] _ IH]; constructor.
  - split; [exact Hk | exact (camera_entry_length _ _ _ _ _ Hv)].
  - exact IH.
Qed.

(** X16.  A cycle that completes lists the cameras of the configuration, in its
    order, each with one boolean per configured polygon. *)
Theorem run_status_check_shape
        (image : Type) (fetch : Z -> result (option image))
        (detect : image -> result value)
        (int_of_str : string -> option Z)
        (spots_data : list (string * camera_data))
        (status : list (string * list bool)) :
  NoDup (map fst spots_data) ->
  run_status_check fetch detect int_of_str spots_data = Ok status ->
  Forall2 (fun item e =>
             fst e = fst item
             /\ List.length (snd e) = List.length (polygons_of (snd item)))
          spots_data status.
Proof.
  intros Hnd H. rewrite run_status_check_entries in H by exact Hnd.
  apply entries_shape in H. exact H.
Qed.

(* ================================================================== *)
(** ** The map renderer *)

Lemma nth_error_skipn {A} (l : list A) (i : nat) (a : A) :
  nth_error l i = Some a -> skipn i l = a :: skipn (S i) l.
Proof.
  revert i. induction l as [|x l IH]; intros [|i] H; try discriminate H.
  - injection H as ->. reflexivity.
  - simpl in H. apply IH in H. exact H.
Qed.

Lemma draw_spots_from (map_spots : list point) (occupancy : list bool)
      (i : nat) (drawn : list marker) :
  for_each (draw_spot map_spots)
           (combine (seq i (List.length occupancy)) occupancy) drawn
  = Ok (drawn ++ map (fun so => marker_at (fst so) (snd so))
                     (combine (skipn i map_spots) occupancy)).
Proof.
  revert i drawn. induction occupancy as [|occ occupancy IH]; intros i drawn.
  - simpl. rewrite combine_nil, app_nil_r. reflexivity.
  - cbn [List.length seq combine for_each]. unfold draw_spot at 1.
    destruct (Nat.leb_spec (List.length map_spots) i) as [Hout|Hin].
    + cbn [bind]. rewrite IH.
      rewrite !skipn_all2 by lia. reflexivity.
    + destruct (nth_error map_spots i) as [[x y]|] eqn:Hnth.
      * unfold list_getitem. rewrite Hnth. cbn [bind]. rewrite IH.
        rewrite (nth_error_skipn _ _ Hnth). cbn [combine map fst snd].
        rewrite <- app_assoc. reflexivity.
      * apply nth_error_None in Hnth. lia.
Qed.

Lemma draw_camera_markers (spots_data : list (string * camera_data))
      (drawn : list marker) (cam : string) (occupancy : list bool) :
  draw_camera spots_data drawn (cam, occupancy)
  = Ok (drawn ++ map (fun so => marker_at (fst so) (snd so))
                     (combine (spots_of spots_data cam) occupancy)).
Proof.
  unfold draw_camera, enumerate, spots_of.
  rewrite draw_spots_from. reflexivity.
Qed.



(* ================================================================== *)
(** ** Geometry: rectangles and bounding boxes *)





Lemma below_iff (cy : Q) (v : point) : below cy v = true <-> snd v < cy.
Proof. unfold below. apply Qlt_bool_iff. Qed.

Lemma nth_mod_In (poly : polygon) (j : nat) :
  poly <> [] -> In (nth (j mod List.length poly) poly (0, 0)) poly.
Proof.
  intros Hne. apply nth_In. apply Nat.mod_upper_bound.
  destruct poly; [contradiction | discriminate].
Qed.

Lemma parity_no_toggle (cx cy : Q) (poly : polygon) (k : nat) :
  poly <> [] ->
  (forall a b, In a poly -> In b poly -> edge_toggles cx cy a b = false) ->
  (k <= List.length poly)%nat ->
  parity_upto cx cy poly k = false.
Proof.
  intros Hne Hnone. induction k as [|k IH]; intros Hk.
  - reflexivity.
  - rewrite parity_upto_S, IH by lia. rewrite Hnone.
    + reflexivity.
    + apply nth_In. lia.
    + apply nth_mod_In, Hne.
Qed.

Lemma min_seq_le (a : Q) (l : list Q) :
  min_seq a l <= a /\ forall b, In b l -> min_seq a l <= b.
Proof.
  unfold min_seq. revert a. induction l as [|x l IH]; intros a; simpl.
  - split; [apply Qle_refl | intros b []].
  - destruct (IH (pymin a x)) as [H0 Hin].
    pose proof (pymin_Qmin a x) as E.
    assert (Ha : pymin a x <= a) by (rewrite E; apply Q.le_min_l).
    assert (Hx : pymin a x <= x) by (rewrite E; apply Q.le_min_r).
    split; [lra|]. intros b [<-|Hb]; [lra | apply Hin, Hb].
Qed.

Lemma max_seq_ge (a : Q) (l : list Q) :
  a <= max_seq a l /\ forall b, In b l -> b <= max_seq a l.
Proof.
  unfold max_seq. revert a. induction l as [|x l IH]; intros a; simpl.
  - split; [apply Qle_refl | intros b []].
  - destruct (IH (pymax a x)) as [H0 Hin].
    pose proof (pymax_Qmax a x) as E.
    assert (Ha : a <= pymax a x) by (rewrite E; apply Q.le_max_l).
    assert (Hx : x <= pymax a x) by (rewrite E; apply Q.le_max_r).
    split; [lra|]. intros b [<-|Hb]; [lra | apply Hin, Hb].
Qed.

Lemma min_seq_attained (a : Q) (l : list Q) : In (min_seq a l) (a :: l).
Proof.
  unfold min_seq. revert a. induction l as [|x l IH]; intros a; simpl.
  - left. reflexivity.
  - destruct (IH (pymin a x)) as [H|H].
    + unfold pymin in H at 1. destruct (Qlt_bool x a); auto.
    + right. right. exact H.
Qed.

Lemma max_seq_attained (a : Q) (l : list Q) : In (max_seq a l) (a :: l).
Proof.
  unfold max_seq. revert a. induction l as [|x l IH]; intros a; simpl.
  - left. reflexivity.
  - destruct (IH (pymax a x)) as [H|H].
    + unfold pymax in H at 1. destruct (Qlt_bool a x); auto.
    + right. right. exact H.
Qed.

Lemma bbox_encloses (poly : polygon) (xmin ymin xmax ymax : Q) :
  polygon_to_bbox poly = Ok (xmin, ymin, xmax, ymax) ->
  forall v, In v poly ->
    (xmin <= fst v /\ fst v <= xmax) /\ (ymin <= snd v /\ snd v <= ymax).
Proof.
  destruct poly as [|[x y] r]; [discriminate|].
  unfold polygon_to_bbox. intros H. injection H as <- <- <- <-.
  intros v Hv.
  destruct (min_seq_le x (map fst r)) as [Hx0 Hx1].
  destruct (max_seq_ge x (map fst r)) as [Hx2 Hx3].
  destruct (min_seq_le y (map snd r)) as [Hy0 Hy1].
  destruct (max_seq_ge y (map snd r)) as [Hy2 Hy3].
  destruct Hv as [<-|Hv]; [cbn [fst snd]; tauto|].
  pose proof (in_map fst _ _ Hv) as Hfx.
  pose proof (in_map snd _ _ Hv) as Hfy.
  auto.
Qed.

(** X14.  The bounding box of the legacy variant encloses every vertex, each of
    its four bounds is the coordinate of some vertex, and a polygon without
    vertices has no box: the function raises [ValueError]. *)
Theorem polygon_to_bbox_bounds (poly : polygon) :
  (poly = [] -> polygon_to_bbox poly = Raise ValueError)
  /\ (poly <> [] ->
      exists xmin ymin xmax ymax,
        polygon_to_bbox poly = Ok (xmin, ymin, xmax, ymax)
        /\ (forall v, In v poly ->
              (xmin <= fst v /\ fst v <= xmax)
              /\ (ymin <= snd v /\ snd v <= ymax))
        /\ In xmin (map fst poly) /\ In xmax (map fst poly)
        /\ In ymin (map snd poly) /\ In ymax (map snd poly)).
Proof.
  split; [intros ->; reflexivity|]. intros Hne.
  destruct poly as [|[x y] r]; [contradiction|].
  do 4 eexists. split; [reflexivity|]. split.
  - apply (@bbox_encloses ((x, y) :: r)). reflexivity.
  - cbn [map fst snd].
    repeat split; first [apply min_seq_attained | apply max_seq_attained].
Qed.

(** X11.  A point right of the bounding box of the polygon, above it, or
    on or below its lower side is never reported inside: no edge passes
    the comparisons of line 87, so line 89 is never reached. *)
Theorem outside_bbox_is_outside (cx cy : Q) (poly : polygon)
        (xmin ymin xmax ymax : Q) :
  polygon_to_bbox poly = Ok (xmin, ymin, xmax, ymax) ->
  xmax < cx \/ cy <= ymin \/ ymax < cy ->
  ray_cast cx cy poly = Ok false.
Proof.
  intros Hbox Hout.
  assert (Hne : poly <> []) by (intros ->; discriminate Hbox).
  pose proof (bbox_encloses _ Hbox) as Hin.
  rewrite (ray_cast_refines cx cy Hne). f_equal.
  change (ray_cast_edges cx cy poly)
    with (parity_upto cx cy poly (List.length poly)).
  apply parity_no_toggle; [exact Hne | | apply Nat.le_refl].
  intros a b Ha Hb. unfold edge_toggles.
  destruct (in_band cx cy (fst a) (snd a) (fst b) (snd b)) eqn:Hband;
    [|reflexivity].
  exfalso. apply in_band_iff in Hband as [[Hlo Hhi] Hx].
  destruct (Hin a Ha) as [[Ha1 Ha2] [Ha3 Ha4]].
  destruct (Hin b Hb) as [[Hb1 Hb2] [Hb3 Hb4]].
  pose proof (Q.min_glb (snd a) (snd b) ymin Ha3 Hb3).
  pose proof (Q.max_lub (snd a) (snd b) ymax Ha4 Hb4).
  pose proof (Q.max_lub (fst a) (fst b) xmax Ha2 Hb2).
  lra.
Qed.

(* ================================================================== *)
(** ** The resolver as a function of the set of detections *)








(* ================================================================== *)
(** ** A cycle and its drawing *)

Lemma entries_lookup
      (image : Type) (fetch : Z -> result (option image))
        (detect : image -> result value)
      (int_of_str : string -> option Z)
      (items : list (string * camera_data)) (es : list (string * list bool))
      (cam_str : string) (data : camera_data) :
  NoDup (map fst items) ->
  entries fetch detect int_of_str items = Ok es ->
  In (cam_str, data) items ->
  exists v, camera_entry fetch detect int_of_str cam_str data = Ok v
            /\ lookup cam_str es = Some v.
Proof.
  revert es. induction items as [|[k d] items IH]; simpl; intros es Hnd H Hin;
    [contradiction|].
  apply NoDup_cons_iff in Hnd as [Hfresh Hnd].
  apply bind_Ok_inv in H as (v & Hv & H).
  apply bind_Ok_inv in H as (rest & Hrest & H). injection H as <-.
  destruct Hin as [Heq|Hin].
  - injection Heq as -> ->. exists v. split; [exact Hv|].
    simpl. rewrite String.eqb_refl. reflexivity.
  - destruct (IH rest Hnd Hrest Hin) as (v' & Hv' & Hl).
    exists v'. split; [exact Hv'|]. simpl.
    destruct (String.eqb_spec cam_str k) as [->|_]; [|exact Hl].
    exfalso. apply Hfresh. apply (in_map fst) in Hin. exact Hin.
Qed.

Lemma combine_repeat_false {A} (l : list A) (n : nat) :
  combine l (repeat false n) = map (fun a => (a, false)) (firstn n l).
Proof.
  revert l. induction n as [|n IH]; intros [|a l]; simpl; try reflexivity.
  rewrite IH. reflexivity.
Qed.


(** X22.  A camera that could not be fetched is drawn all green: its vector pairs
    [false] with the first map spots, as many as it has polygons. *)
Theorem unreachable_camera_drawn_free
        (image : Type) (fetch : Z -> result (option image))
        (detect : image -> result value)
        (int_of_str : string -> option Z)
        (spots_data : list (string * camera_data))
        (status : list (string * list bool))
        (cam_str : string) (data : camera_data) (n : Z) :
  NoDup (map fst spots_data) ->
  In (cam_str, data) spots_data ->
  cam_number int_of_str cam_str = Ok n ->
  fetch n = Ok None ->
  run_status_check fetch detect int_of_str spots_data = Ok status ->
  exists v,
    lookup cam_str status = Some v
    /\ forall drawn,
        draw_camera spots_data drawn (cam_str, v)
        = Ok (drawn
              ++ map (fun spot => marker_at spot false)
                     (firstn (List.length (polygons_of data))
                             (spots_of spots_data cam_str))).
Proof.
  intros Hnd Hin Hnum Hfail Hrun.
  rewrite run_status_check_entries in Hrun by exact Hnd.
  destruct (@entries_lookup image fetch detect int_of_str spots_data status
                            cam_str data Hnd Hrun Hin) as (v & Hv & Hl).
  exists v. split; [exact Hl|]. intros drawn.
  assert (Hfalse : v = repeat false (List.length (polygons_of data))).
  { unfold camera_entry, polygons_of in *. rewrite Hnum in Hv. cbn [bind] in Hv.
    destruct (match polygons data with Some p => p | None => [] end)
      as [|p ps].
    - injection Hv as <-. reflexivity.
    - rewrite Hfail in Hv. injection Hv as <-. reflexivity. }
  rewrite draw_camera_markers. subst v.
  rewrite combine_repeat_false, map_map. reflexivity.
Qed.

(* ================================================================== *)
(** ** Camera keys *)

Lemma replace_cam_no_c (s : string) :
  has_char "c" s = false -> replace_cam s = s.
Proof.
  induction s as [|a s IH]; intros H; [reflexivity|].
  simpl in H. apply orb_false_iff in H as [Ha Hs].
  assert (Hrec : replace_cam (String a s) = String a (replace_cam s)).
  { destruct a as [[] [] [] [] [] [] [] []]; try reflexivity.
    discriminate Ha. }
  rewrite Hrec, IH by exact Hs. reflexivity.
Qed.

(** X19.  For a key made of [cam] and a suffix without the letter c (digits, for
    one), the camera number is what [int] makes of the suffix, and a
    suffix that [int] rejects raises [ValueError]; the prefix may be
    missing or repeated without changing the number. *)
Theorem cam_number_of_key (int_of_str : string -> option Z) (suffix : string) :
  has_char "c" suffix = false ->
  cam_number int_of_str ("cam" ++ suffix)
  = match int_of_str suffix with Some n => Ok n | None => Raise ValueError end
  /\ cam_number int_of_str suffix = cam_number int_of_str ("cam" ++ suffix)
  /\ cam_number int_of_str ("camcam" ++ suffix)
     = cam_number int_of_str ("cam" ++ suffix).
Proof.
  intros H. unfold cam_number.
  change (replace_cam ("cam" ++ suffix)) with (replace_cam suffix).
  change (replace_cam ("camcam" ++ suffix)) with (replace_cam suffix).
  rewrite (@replace_cam_no_c suffix H). repeat split.
Qed.

(* ================================================================== *)
(** ** The data URI of the snapshot *)

Lemma startswith_app (s t prefix : string) :
  startswith s prefix = true -> startswith (s ++ t) prefix = true.
Proof.
  revert s. induction prefix as [|p prefix IH]; intros s H.
  - destruct (s ++ t)%string; reflexivity.
  - destruct s as [|c s]; [discriminate H|]. simpl in H |- *.
    apply andb_true_iff in H as [Hc Hs]. rewrite Hc. simpl. apply IH, Hs.
Qed.

Lemma split_comma_nonempty (s : string) : split_comma s <> [].
Proof.
  destruct s as [|c s]; simpl; [discriminate|].
  destruct (Ascii.eqb c ","); [discriminate|].
  destruct (split_comma s); discriminate.
Qed.

Lemma split_comma_no_comma (s : string) :
  has_comma s = false -> split_comma s = [s].
Proof.
  induction s as [|c s IH]; simpl; intros H; [reflexivity|].
  apply orb_false_iff in H as [Hc Hs]. rewrite Hc, (IH Hs). reflexivity.
Qed.

Lemma split_comma_app (header rest : string) :
  has_comma header = false ->
  split_comma (header ++ String "," rest) = header :: split_comma rest.
Proof.
  induction header as [|c header IH]; simpl; intros H; [reflexivity|].
  apply orb_false_iff in H as [Hc Hs]. rewrite Hc, (IH Hs). reflexivity.
Qed.

(** X23.  From a [src] of the form header, comma, payload, where the header
    starts with [data:image] and has no comma, the text handed to the
    base64 decoder is the payload up to its first comma, hence the whole
    payload when it has none. *)
Theorem base64_data_payload (header payload : string) :
  startswith header "data:image" = true ->
  has_comma header = false ->
  base64_data (header ++ String "," payload)
  = Ok (Some (hd EmptyString (split_comma payload)))
  /\ (has_comma payload = false ->
      base64_data (header ++ String "," payload) = Ok (Some payload)).
Proof.
  intros Hstart Hhdr.
  assert (H : base64_data (header ++ String "," payload)
              = Ok (Some (hd EmptyString (split_comma payload)))).
  { unfold base64_data. rewrite (@startswith_app header (String "," payload) "data:image" Hstart).
    rewrite (@split_comma_app header payload Hhdr). unfold list_getitem.
    pose proof (split_comma_nonempty payload) as Hne.
    destruct (split_comma payload) as [|piece pieces]; [contradiction|].
    reflexivity. }
  split; [exact H|]. intros Hpay. rewrite H.
  rewrite (@split_comma_no_comma payload Hpay). reflexivity.
Qed.

(** X24.  A [src] that starts with [data:image] and contains no comma makes line
    49 raise [IndexError]; any other [src] without that prefix is not
    decoded at all. *)
Theorem base64_data_without_comma (src : string) :
  (startswith src "data:image" = true -> has_comma src = false ->
   base64_data src = Raise IndexError)
  /\ (startswith src "data:image" = false -> base64_data src = Ok None).
Proof.
  unfold base64_data. split.
  - intros -> Hc. rewrite (@split_comma_no_comma src Hc). reflexivity.
  - intros ->. reflexivity.
Qed.

(* ================================================================== *)
(** ** Independence of the way the polygon is listed *)

Lemma fold_left_ext_in {A B} (f g : A -> B -> A) (l : list B) (a : A) :
  (forall acc x, In x l -> f acc x = g acc x) ->
  fold_left f l a = fold_left g l a.
Proof.
  revert a. induction l as [|x l IH]; intros a H; simpl; [reflexivity|].
  rewrite H by (left; reflexivity). apply IH.
  intros acc y Hy. apply H. right. exact Hy.
Qed.











(* ================================================================== *)
(** ** Only the centre of the box counts *)

Lemma edge_toggles_point (cx cy cx' cy' : Q) (a b : point) :
  cx == cx' -> cy == cy' ->
  edge_toggles cx cy a b = edge_toggles cx' cy' a b.
Proof.
  intros Hx Hy. unfold edge_toggles, x_test, x_at. f_equal.
  - apply eq_true_iff_eq. rewrite !in_band_iff. rewrite Hx, Hy. reflexivity.
  - f_equal. apply eq_true_iff_eq. rewrite !Qle_bool_iff.
    rewrite Hx, Hy. reflexivity.
Qed.

Lemma ray_cast_point (cx cy cx' cy' : Q) (poly : polygon) :
  cx == cx' -> cy == cy' -> ray_cast cx cy poly = ray_cast cx' cy' poly.
Proof.
  intros Hx Hy. destruct poly as [|v rest]; [reflexivity|].
  rewrite !ray_cast_refines by discriminate. f_equal.
  unfold ray_cast_edges. apply fold_left_ext_in. intros acc j _.
  rewrite (edge_toggles_point _ _ Hx Hy). reflexivity.
Qed.

(** X8.  Two boxes with the same centre are told apart by no polygon, whatever
    their sizes: the test sees the box only through its centre. *)
Theorem check_overlap_same_center (box box' : value) (c c' : point)
        (poly : polygon) :
  box_center box = Ok c ->
  box_center box' = Ok c' ->
  fst c == fst c' -> snd c == snd c' ->
  check_overlap box poly = check_overlap box' poly.
Proof.
  intros Hb Hb' Hx Hy. unfold check_overlap. rewrite Hb, Hb'.
  destruct c as [cx cy], c' as [cx' cy']. cbn [bind].
  apply ray_cast_point; assumption.
Qed.

(* ================================================================== *)
(** ** Adjacent rectangular spots *)


(* ================================================================== *)
(** ** What the filter lets through, whatever it is given *)

(** X5.  On any input on which the filter returns, every kept record comes from
    the input, is a dict with one of the four vehicle labels, and has a
    score field that reads as a number above 0.7. *)
Theorem kept_records_are_vehicles (objs vehicles : list value) :
  detected_vehicles objs = Ok vehicles ->
  forall v, In v vehicles ->
    In v objs
    /\ exists d l sv s,
        v = VDict d
        /\ lookup "label" d = Some (VStr l) /\ In l vehicle_labels
        /\ lookup "score" d = Some sv /\ as_num sv = Some s /\ min_score < s.
Proof.
  revert vehicles. induction objs as [|obj objs IH]; intros vehicles H v Hv.
  - injection H as <-. contradiction.
  - cbn [detected_vehicles] in H.
    apply bind_Ok_inv in H as (keep & Hkeep & H).
    apply bind_Ok_inv in H as (rest & Hrest & H). injection H as <-.
    destruct keep;
      [destruct Hv as [<-|Hv]|];
      try (destruct (IH rest Hrest v Hv) as [Hin' Hshape];
           split; [right; exact Hin' | exact Hshape]).
    split; [left; reflexivity|].
    destruct obj as [| | | | |d]; try discriminate Hkeep.
    unfold is_vehicle, dict_get, dict_get_default in Hkeep.
    apply bind_Ok_inv in Hkeep as (labelled & Hlab & Hkeep).
    destruct labelled; [|discriminate Hkeep].
    destruct (lookup "label" d) as [lv|] eqn:Hlabel; [|discriminate Hlab].
    destruct lv as [| | |l| |]; try discriminate Hlab.
    cbn [in_str_set] in Hlab. injection Hlab as Hlab.
    change (existsb (String.eqb l) vehicle_labels = true) in Hlab.
    apply existsb_exists in Hlab as (l' & Hin & Heq).
    apply String.eqb_eq in Heq. subst l'.
    unfold gt_num in Hkeep.
    destruct (lookup "score" d) as [sv|] eqn:Hscore.
    + destruct (as_num sv) as [s|] eqn:Hnum; [|discriminate Hkeep].
      injection Hkeep as Hkeep.
      exists d, l, sv, s. repeat split; try assumption; try reflexivity.
      apply Qlt_bool_iff. exact Hkeep.
    + cbn [as_num] in Hkeep. discriminate Hkeep.
Qed.

(* ================================================================== *)
(** ** Exceptions and the order of the cameras *)

(** X18.  An exception raised while one camera is processed leaves
    [run_status_check]: when the cameras before it complete, the whole
    cycle raises that exception and returns no status, whatever follows. *)
Theorem camera_exception_aborts_cycle
        (image : Type) (fetch : Z -> result (option image))
        (detect : image -> result value)
        (int_of_str : string -> option Z)
        (pre post : list (string * camera_data)) (cam_str : string)
        (data : camera_data) (e : exn)
        (status_pre : list (string * list bool)) :
  NoDup (map fst (pre ++ (cam_str, data) :: post)) ->
  run_status_check fetch detect int_of_str pre = Ok status_pre ->
  run_status_check fetch detect int_of_str [(cam_str, data)] = Raise e ->
  run_status_check fetch detect int_of_str (pre ++ (cam_str, data) :: post)
  = Raise e.
Proof.
  intros Hnd Hpre Hone.
  assert (Hnd_pre : NoDup (map fst pre)).
  { rewrite map_app in Hnd. apply NoDup_app_remove_r in Hnd. exact Hnd. }
  rewrite run_status_check_entries in Hpre by exact Hnd_pre.
  rewrite run_status_check_entries in Hone
    by (simpl; constructor; [intros [] | constructor]).
  rewrite run_status_check_entries by exact Hnd.
  rewrite entries_app, Hpre. cbn [bind entries] in Hone |- *.
  destruct (camera_entry fetch detect int_of_str cam_str data) as [v|e'].
  - discriminate Hone.
  - exact Hone.
Qed.

Lemma entries_total
      (image : Type) (fetch : Z -> result (option image))
        (detect : image -> result value)
      (int_of_str : string -> option Z)
      (items : list (string * camera_data)) :
  Forall (fun item =>
            exists v, camera_entry fetch detect int_of_str
                                   (fst item) (snd item) = Ok v) items ->
  exists es, entries fetch detect int_of_str items = Ok es.
Proof.
  induction 1 as [|[k d] items [v Hv] _ [es IH]].
  - exists []. reflexivity.
  - exists ((k, v) :: es). cbn [entries fst snd] in Hv |- *.
    rewrite Hv, IH. reflexivity.
Qed.

(** X17.  The cameras do not influence one another: a cycle over the same
    configuration listed in another order completes as well and gives
    every camera the same vector. *)
Theorem run_status_check_camera_order
        (image : Type) (fetch : Z -> result (option image))
        (detect : image -> result value)
        (int_of_str : string -> option Z)
        (spots_data spots_data' : list (string * camera_data))
        (status : list (string * list bool)) :
  Permutation spots_data spots_data' ->
  NoDup (map fst spots_data) ->
  run_status_check fetch detect int_of_str spots_data = Ok status ->
  exists status',
    run_status_check fetch detect int_of_str spots_data' = Ok status'
    /\ forall k, lookup k status' = lookup k status.
Proof.
  intros Hperm Hnd Hrun.
  assert (Hnd' : NoDup (map fst spots_data')).
  { apply Permutation_NoDup with (map fst spots_data);
      [apply Permutation_map, Hperm | exact Hnd]. }
  rewrite run_status_check_entries in Hrun by exact Hnd.
  rewrite run_status_check_entries by exact Hnd'.
  assert (Hall : Forall (fun item =>
                           exists v, camera_entry fetch detect int_of_str
                                                  (fst item) (snd item) = Ok v)
                        spots_data').
  { apply Forall_forall. intros [k d] Hin.
    apply Permutation_sym in Hperm.
    pose proof (Permutation_in _ Hperm Hin) as Hin0.
    destruct (@entries_lookup image fetch detect int_of_str spots_data status
                              k d Hnd Hrun Hin0) as (v & Hv & _).
    exists v. exact Hv. }
  destruct (@entries_total image fetch detect int_of_str spots_data' Hall)
    as [status' Hrun'].
  exists status'. split; [exact Hrun'|]. intros k.
  destruct (in_dec string_dec k (map fst spots_data)) as [Hk|Hk].
  - apply in_map_iff in Hk as ([k' d] & <- & Hin). cbn [fst].
    destruct (@entries_lookup image fetch detect int_of_str spots_data status
                              k' d Hnd Hrun Hin) as (v & Hv & ->).
    destruct (@entries_lookup image fetch detect int_of_str spots_data'
                              status' k' d Hnd' Hrun'
                              (Permutation_in _ Hperm Hin))
      as (v' & Hv' & ->).
    congruence.
  - rewrite (lookup_not_in k status), (lookup_not_in k status');
      [reflexivity | |].
    + rewrite (@entries_keys image fetch detect int_of_str _ _ Hrun').
      intros Hin. apply Hk.
      apply Permutation_in with (map fst spots_data'); [|exact Hin].
      apply Permutation_sym, Permutation_map, Hperm.
    + rewrite (@entries_keys image fetch detect int_of_str _ _ Hrun). exact Hk.
Qed.

(* ================================================================== *)
(** ** Further statements at sample inputs *)

Lemma resolve_one_entry_per_polygon_witness :
  List.length [false; false; true; false] = List.length Sample.row.
Proof.
  refine (@resolve_one_entry_per_polygon
            (VList [Sample.record "car" (9 # 10) 22 2 28 8])
            Sample.row [false; false; true; false] _).
  reflexivity.
Defined.

Lemma resolve_containment_calls_bounded_witness :
  exists vehicles,
    detected_vehicles [Sample.record "car" (9 # 10) 22 2 28 8;
                       Sample.record "person" (99 # 100) 2 2 8 8]
    = Ok vehicles
    /\ (List.length vehicles <= 2)%nat
    /\ (4 <= List.length vehicles * List.length Sample.row)%nat.
Proof.
  refine (@resolve_containment_calls_bounded
            [Sample.record "car" (9 # 10) 22 2 28 8;
             Sample.record "person" (99 # 100) 2 2 8 8]
            Sample.row [false; false; true; false] 4%nat _).
  reflexivity.
Defined.

Lemma lot_keys_distinct : NoDup (map fst Sample.lot).
Proof.
  apply NoDup_cons; [intros [H|[]]; discriminate H|].
  apply NoDup_cons; [intros []|]. apply NoDup_nil.
Defined.

Lemma run_status_check_shape_witness :
  Forall2 (fun item e =>
             fst e = fst item
             /\ List.length (snd e) = List.length (polygons_of (snd item)))
          Sample.lot
          [("cam1", [false; false]); ("cam2", [false; false; true; false])].
Proof.
  refine (@run_status_check_shape nat Sample.fetch Sample.detect
            Sample.int_of_str Sample.lot _ lot_keys_distinct _).
  reflexivity.
Defined.


Lemma unreachable_camera_drawn_free_witness :
  exists v,
    lookup "cam1" [("cam1", [false; false]);
                   ("cam2", [false; false; true; false])] = Some v
    /\ forall drawn,
        draw_camera Sample.lot drawn ("cam1", v)
        = Ok (drawn ++ [marker_at (100, 50) false; marker_at (120, 50) false]).
Proof.
  refine (@unreachable_camera_drawn_free nat Sample.fetch Sample.detect
            Sample.int_of_str Sample.lot _ "cam1" Sample.lot_cam1 1%Z
            lot_keys_distinct _ _ _ _).
  - left. reflexivity.
  - reflexivity.
  - reflexivity.
  - reflexivity.
Defined.


Lemma outside_bbox_is_outside_witness :
  ray_cast 13 5 Sample.triangle = Ok false.
Proof.
  refine (@outside_bbox_is_outside 13 5 Sample.triangle 0 0 10 10 _ _).
  - reflexivity.
  - left. reflexivity.
Defined.



Lemma cam_number_of_key_witness :
  cam_number Sample.int_of_str "cam2" = Ok 2%Z.
Proof.
  refine (proj1 (@cam_number_of_key Sample.int_of_str "2" _)).
  reflexivity.
Defined.

Lemma base64_data_payload_witness :
  base64_data "data:image/png;base64,iVBORw0KGgo=" = Ok (Some "iVBORw0KGgo=").
Proof.
  refine (proj2 (@base64_data_payload "data:image/png;base64" "iVBORw0KGgo="
                                      _ _) _); reflexivity.
Defined.

Lemma check_overlap_same_center_witness :
  check_overlap Sample.large_box (Sample.square 10 0 10)
  = check_overlap Sample.small_box (Sample.square 10 0 10).
Proof.
  refine (@check_overlap_same_center Sample.large_box Sample.small_box
            ((0 + 30) / 2, (0 + 10) / 2) ((14 + 16) / 2, (4 + 6) / 2)
            (Sample.square 10 0 10) _ _ _ _); reflexivity.
Defined.


Lemma kept_records_are_vehicles_witness :
  In (Sample.boxless "car" (9 # 10))
     [VStr "warming up"; Sample.boxless "car" (9 # 10)]
  /\ exists d l sv s,
      Sample.boxless "car" (9 # 10) = VDict d
      /\ lookup "label" d = Some (VStr l) /\ In l vehicle_labels
      /\ lookup "score" d = Some sv /\ as_num sv = Some s /\ min_score < s.
Proof.
  refine (@kept_records_are_vehicles
            [VStr "warming up"; Sample.boxless "car" (9 # 10)]
            [Sample.boxless "car" (9 # 10)] _
            (Sample.boxless "car" (9 # 10)) _).
  - reflexivity.
  - left. reflexivity.
Defined.

Lemma camera_exception_aborts_cycle_witness :
  run_status_check Sample.fetch_always Sample.detect_boxless Sample.int_of_str
                   ([("cam3", Sample.cam3)]
                    ++ ("cam1", Sample.cam1) :: [("cam2", Sample.cam2)])
  = Raise KeyError.
Proof.
  refine (@camera_exception_aborts_cycle nat Sample.fetch_always
            Sample.detect_boxless Sample.int_of_str
            [("cam3", Sample.cam3)] [("cam2", Sample.cam2)]
            "cam1" Sample.cam1 KeyError [("cam3", [])]
            sample_keys_distinct _ _); reflexivity.
Defined.

Lemma run_status_check_camera_order_witness :
  exists status',
    run_status_check Sample.fetch Sample.detect Sample.int_of_str
                     [("cam2", Sample.cam2); ("cam1", Sample.cam1)]
    = Ok status'
    /\ forall k,
        lookup k status'
        = lookup k [("cam1", [false; false]);
                    ("cam2", [false; false; true; false])].
Proof.
  refine (@run_status_check_camera_order nat Sample.fetch Sample.detect
            Sample.int_of_str
            [("cam1", Sample.cam1); ("cam2", Sample.cam2)]
            [("cam2", Sample.cam2); ("cam1", Sample.cam1)]
            _ _ _ _).
  - apply perm_swap.
  - apply NoDup_cons; [intros [H|[]]; discriminate H|].
    apply NoDup_cons; [intros []|]. apply NoDup_nil.
  - reflexivity.
Defined.

(* ================================================================== *)
(** ** The legacy resolver *)

(** X15.  When the legacy resolver returns, it has one boolean per polygon, and
    every polygon had at least one vertex: a polygon without vertices makes
    it raise [ValueError] once the polygons before it are done. *)
Theorem legacy_detect_occupancy_shape
        (image : Type) (detector : image -> Q * Q * Q * Q -> value)
        (img : image) (polys : list polygon) :
  (forall occupied,
      legacy_detect_occupancy detector img polys = Ok occupied ->
      List.length occupied = List.length polys
      /\ Forall (fun poly => poly <> []) polys)
  /\ (forall pre post before,
        polys = pre ++ [] :: post ->
        legacy_detect_occupancy detector img pre = Ok before ->
        legacy_detect_occupancy detector img polys = Raise ValueError).
Proof.
  split.
  - induction polys as [|poly polys IH]; intros occupied H.
    + injection H as <-. split; [reflexivity | constructor].
    + cbn [legacy_detect_occupancy] in H.
      apply bind_Ok_inv in H as (bbox & Hbox & H).
      apply bind_Ok_inv in H as (results & _ & H).
      apply bind_Ok_inv in H as (has_car & _ & H).
      apply bind_Ok_inv in H as (rest & Hrest & H). injection H as <-.
      destruct (IH rest Hrest) as [Hlen Hall]. split.
      * simpl. rewrite Hlen. reflexivity.
      * constructor; [|exact Hall]. intros ->. discriminate Hbox.
  - intros pre post before -> Hpre. revert before Hpre.
    induction pre as [|poly pre IH]; intros before Hpre.
    + reflexivity.
    + cbn [legacy_detect_occupancy app] in Hpre |- *.
      apply bind_Ok_inv in Hpre as (bbox & Hbox & Hpre).
      rewrite Hbox. cbn [bind].
      apply bind_Ok_inv in Hpre as (results & Hres & Hpre).
      rewrite Hres. cbn [bind].
      apply bind_Ok_inv in Hpre as (has_car & Hcar & Hpre).
      rewrite Hcar. cbn [bind].
      apply bind_Ok_inv in Hpre as (rest & Hrest & _).
      rewrite (IH rest Hrest). reflexivity.
Qed.

(* ================================================================== *)
(** ** A polygon without vertices *)




Lemma legacy_detect_occupancy_shape_witness :
  legacy_detect_occupancy
    (fun (_ : nat) (_ : Q * Q * Q * Q) =>
       VList [Sample.record "truck" (6 # 10) 1 1 3 3])
    O [Sample.triangle; []; Sample.triangle]
  = Raise ValueError.
Proof.
  refine (proj2 (@legacy_detect_occupancy_shape nat
                   (fun _ _ => VList [Sample.record "truck" (6 # 10) 1 1 3 3])
                   O [Sample.triangle; []; Sample.triangle])
                [Sample.triangle] [Sample.triangle] [true] _ _);
    reflexivity.
Defined.

Lemma polygon_to_bbox_bounds_witness :
  exists xmin ymin xmax ymax,
    polygon_to_bbox Sample.triangle = Ok (xmin, ymin, xmax, ymax)
    /\ In xmin (map fst Sample.triangle) /\ In ymax (map snd Sample.triangle).
Proof.
  destruct (proj2 (polygon_to_bbox_bounds Sample.triangle))
    as (xmin & ymin & xmax & ymax & Hbox & _ & Hx & _ & _ & Hy).
  - discriminate.
  - exists xmin, ymin, xmax, ymax. split; [exact Hbox|]. split; assumption.
Defined.

Lemma base64_data_without_comma_witness :
  base64_data "data:image/png;base64" = Raise IndexError.
Proof.
  refine (proj1 (base64_data_without_comma "data:image/png;base64") _ _);
    reflexivity.
Defined.

(* ================================================================== *)
(** ** The filter on arbitrary input *)

Lemma is_vehicle_total (obj : value) :
  is_vehicle obj
  = if unreadable obj then Raise TypeError else Ok (passes obj).
Proof.
  destruct obj as [| | | | |d]; try reflexivity.
  unfold is_vehicle, unreadable, passes, gt_num.
  destruct (dict_get d "label") as [| | |l| |]; try reflexivity.
  cbn [in_str_set bind].
  destruct (existsb (String.eqb l) vehicle_labels); [|reflexivity].
  cbn [andb].
  destruct (as_num (dict_get_default d "score" (VNum 0))); reflexivity.
Qed.

Lemma detected_vehicles_total (objs : list value) :
  detected_vehicles objs
  = if existsb unreadable objs then Raise TypeError
    else Ok (filter passes objs).
Proof.
  induction objs as [|obj objs IH]; [reflexivity|].
  cbn [detected_vehicles existsb filter]. rewrite is_vehicle_total, IH.
  destruct (unreadable obj); [reflexivity|]. cbn [bind orb].
  destruct (existsb unreadable objs); [reflexivity|].
  destruct (passes obj); reflexivity.
Qed.

Lemma passes_iff (obj : value) :
  passes obj = true <->
  exists d l sv s,
    obj = VDict d /\ lookup "label" d = Some (VStr l) /\ In l vehicle_labels
    /\ lookup "score" d = Some sv /\ as_num sv = Some s /\ min_score < s.
Proof.
  split.
  - destruct obj as [| | | | |d]; try discriminate. unfold passes, dict_get,
      dict_get_default.
    destruct (lookup "label" d) as [lv|] eqn:Hl; [|discriminate].
    destruct lv as [| | |l| |]; try discriminate.
    intros H. apply andb_true_iff in H as [Hin Hs].
    apply existsb_exists in Hin as (l' & Hin & Heq).
    apply String.eqb_eq in Heq. subst l'.
    destruct (lookup "score" d) as [sv|] eqn:Hsc.
    + destruct (as_num sv) as [s|] eqn:Hn; [|discriminate].
      apply Qlt_bool_iff in Hs. exists d, l, sv, s. auto 10.
    + cbn [as_num] in Hs. discriminate Hs.
  - intros (d & l & sv & s & -> & Hl & Hin & Hsc & Hn & Hs).
    unfold passes, dict_get, dict_get_default. rewrite Hl, Hsc, Hn.
    apply andb_true_iff. split; [|apply Qlt_bool_iff, Hs].
    apply existsb_exists. exists l. split; [exact Hin | apply String.eqb_refl].
Qed.

(** C3.  On every detection list the filter either raises [TypeError],
    exactly when some dict has an unhashable label or a vehicle label with
    a score that is no number, or returns, in order, exactly the dicts with
    a vehicle label and a numeric score above 0.7.  On the two lists of
    the claim it answers as claimed; on a record whose score is a string
    it raises instead of dropping the record, and it keeps records without
    a box and records whose score is [true]. *)
Theorem vehicle_filter_on_every_list :
  (forall objs,
      detected_vehicles objs
      = if existsb unreadable objs then Raise TypeError
        else Ok (filter passes objs))
  /\ (forall obj,
        passes obj = true <->
        exists d l sv s,
          obj = VDict d /\ lookup "label" d = Some (VStr l)
          /\ In l vehicle_labels
          /\ lookup "score" d = Some sv /\ as_num sv = Some s
          /\ min_score < s)
  /\ (forall box1 box2,
        let car score box :=
          VDict [("label", VStr "car"); ("score", VNum score); ("box", box)] in
        detected_vehicles [car (9 # 10) box1; car (5 # 10) box2]
        = Ok [car (9 # 10) box1])
  /\ detected_vehicles [] = Ok []
  /\ detected_vehicles [VDict [("label", VStr "car"); ("score", VStr "high")]]
     = Raise TypeError
  /\ detected_vehicles [VDict [("label", VStr "car"); ("score", VNone)]]
     = Raise TypeError
  /\ detected_vehicles [VDict [("label", VStr "car"); ("score", VBool true)]]
     = Ok [VDict [("label", VStr "car"); ("score", VBool true)]]
  /\ detected_vehicles [Sample.boxless "car" (9 # 10)]
     = Ok [Sample.boxless "car" (9 # 10)].
Proof.
  split; [exact detected_vehicles_total|].
  split; [exact passes_iff|].
  repeat split; reflexivity.
Qed.

(* ================================================================== *)
(** ** Where the resolver does not return a vector *)


(* ================================================================== *)
(** ** A page that cannot be decoded *)

(** C5, at the failing input.  When the page of camera 1 carries an image
    tag whose [src] starts with [data:image] and has no comma, line 49
    raises [IndexError], nothing catches it, and the cycle raises instead
    of giving the camera an all-false vector; an exception of lines 50-54
    escapes the same way.  When the request itself fails, which lines
    42-44 catch, the camera gets one [false] per polygon. *)
Theorem malformed_page_aborts_cycle
        (image : Type) (save_snapshot : Z -> string -> result image)
        (detect : image -> result value) :
  run_status_check
    (fetch_cam_image (fun _ => Some "<img>")
                     (fun _ => Some "data:image/png;base64") save_snapshot)
    detect Sample.int_of_str
    [("cam1", Sample.cam1); ("cam3", Sample.cam3)]
  = Raise IndexError
  /\ run_status_check
       (fetch_cam_image (fun _ => Some "<img>")
                        (fun _ => Some "data:image/png;base64,@@")
                        (fun _ _ => @Raise image ValueError))
       detect Sample.int_of_str
       [("cam1", Sample.cam1); ("cam3", Sample.cam3)]
     = Raise ValueError
  /\ run_status_check
       (fetch_cam_image (fun _ => None) (fun _ => None) save_snapshot)
       detect Sample.int_of_str
       [("cam1", Sample.cam1); ("cam3", Sample.cam3)]
     = Ok [("cam1", [false; false]); ("cam3", [])].
Proof.
  repeat split; reflexivity.
Qed.

(* ================================================================== *)
(** ** The half-open rule *)


(* ================================================================== *)
(** ** The loop in binary64 arithmetic *)

Lemma b64_SFcompare_antisym (x y : spec_float) :
  SFcompare y x = option_map CompOpp (SFcompare x y).
Proof.
  destruct x as [s1|s1| |s1 m1 e1], y as [s2|s2| |s2 m2 e2];
    try destruct s1; try destruct s2; try reflexivity; cbn [SFcompare option_map];
    rewrite (Z.compare_antisym e1 e2);
    change (Pos.compare_cont Eq m2 m1) with (Pos.compare m2 m1);
    change (Pos.compare_cont Eq m1 m2) with (Pos.compare m1 m2);
    rewrite (Pos.compare_antisym m1 m2);
    destruct (e1 ?= e2)%Z; cbn [CompOpp];
    try reflexivity; destruct (m1 ?= m2)%positive; reflexivity.
Qed.

Lemma b64_compare_antisym (a b : Binary64.number) :
  Binary64.compare b a = option_map CompOpp (Binary64.compare a b).
Proof.
  destruct a as [x|x], b as [y|y]; cbn [Binary64.compare option_map].
  - rewrite (Z.compare_antisym x y). reflexivity.
  - reflexivity.
  - destruct (Binary64.compare_int_float y x) as [c|]; [|reflexivity].
    cbn [option_map]. rewrite CompOpp_involutive. reflexivity.
  - apply b64_SFcompare_antisym.
Qed.

(** Equal heights leave the half-open range empty, also between an int and
    a float and whatever the point is, NaN included. *)
Lemma b64_in_band_horizontal (cx cy a1x a1y a2x a2y : Binary64.number) :
  Binary64.eq a1y a2y = true ->
  Binary64.in_band cx cy a1x a1y a2x a2y = false.
Proof.
  unfold Binary64.eq, Binary64.in_band, Binary64.pymin, Binary64.pymax,
    Binary64.lt, Binary64.le.
  intros Heq. rewrite (b64_compare_antisym a1y a2y).
  destruct (Binary64.compare a1y a2y) as [[| |]|]; try discriminate Heq.
  cbn [option_map CompOpp]. rewrite (b64_compare_antisym a1y cy).
  destruct (Binary64.compare a1y cy) as [[| |]|]; reflexivity.
Qed.

Lemma b64_to_float_raises (a : Binary64.number) (e : exn) :
  Binary64.to_float a = Raise e -> e = OverflowError.
Proof.
  destruct a as [z|f]; [|discriminate]. cbn [Binary64.to_float].
  unfold Binary64.of_int, Binary64.finite_or_overflow.
  destruct (binary_normalize _ _ _ _ _); intros H; try discriminate H.
  injection H as <-. reflexivity.
Qed.

Lemma b64_arith_raises (on_int : Z -> Z -> Z)
      (on_float : spec_float -> spec_float -> spec_float)
      (a b : Binary64.number) (e : exn) :
  Binary64.arith on_int on_float a b = Raise e -> e = OverflowError.
Proof.
  unfold Binary64.arith. intros H.
  assert (Hmixed : bind (Binary64.to_float a)
                        (fun x => bind (Binary64.to_float b)
                                       (fun y => Ok (Binary64.Float (on_float x y))))
                   = Raise e -> e = OverflowError).
  { destruct (Binary64.to_float a) as [x|e1] eqn:Ea; cbn [bind].
    - destruct (Binary64.to_float b) as [y|e2] eqn:Eb; cbn [bind];
        intros H'; [discriminate H'|].
      injection H' as <-. exact (b64_to_float_raises _ Eb).
    - intros H'. injection H' as <-. exact (b64_to_float_raises _ Ea). }
  destruct a as [x|x], b as [y|y]; try (exact (Hmixed H)). discriminate H.
Qed.

Lemma b64_truediv_raises (a b : Binary64.number) (e : exn) :
  Binary64.truediv a b = Raise e ->
  e = OverflowError \/ e = ZeroDivisionError.
Proof.
  unfold Binary64.truediv. intros H.
  assert (Hmixed : bind (Binary64.to_float a)
                        (fun x => bind (Binary64.to_float b)
                                       (fun y => if Binary64.is_zero y
                                                 then Raise ZeroDivisionError
                                                 else Ok (Binary64.Float
                                                            (SFdiv Binary64.prec
                                                                   Binary64.emax x y))))
                   = Raise e -> e = OverflowError \/ e = ZeroDivisionError).
  { destruct (Binary64.to_float a) as [x|e1] eqn:Ea; cbn [bind].
    - destruct (Binary64.to_float b) as [y|e2] eqn:Eb; cbn [bind].
      + destruct (Binary64.is_zero y); intros H'; [|discriminate H'].
        injection H' as <-. right. reflexivity.
      + intros H'. injection H' as <-. left.
        exact (b64_to_float_raises _ Eb).
    - intros H'. injection H' as <-. left. exact (b64_to_float_raises _ Ea). }
  destruct a as [x|x], b as [y|y]; try (exact (Hmixed H)).
  unfold Binary64.int_truediv, Binary64.finite_or_overflow in H.
  destruct (y =? 0)%Z.
  - injection H as <-. right. reflexivity.
  - destruct (binary_normalize _ _ _ _ _); try discriminate H.
    injection H as <-. left. reflexivity.
Qed.

Lemma b64_line_89_raises (cy : Binary64.number) (st : Binary64.locals)
      (p2x p2y : Binary64.number) (e : exn) :
  Binary64.line_89 cy st p2x p2y = Raise e ->
  e = OverflowError \/ e = ZeroDivisionError.
Proof.
  unfold Binary64.line_89, Binary64.sub, Binary64.mul, Binary64.add.
  intros H.
  repeat match type of H with
         | bind ?m _ = Raise _ =>
             let E := fresh "E" in
             destruct m eqn:E; cbn [bind] in H;
             [| injection H as <-;
                first [ left; exact (b64_arith_raises _ _ _ _ E)
                      | exact (b64_truediv_raises _ _ E) ] ]
         end.
  left. exact (b64_arith_raises _ _ _ _ H).
Qed.

Lemma for_each_raises {S I} (body : S -> I -> result S) (P : exn -> Prop)
      (items : list I) (st : S) (e : exn) :
  (forall st i e, body st i = Raise e -> P e) ->
  for_each body items st = Raise e -> P e.
Proof.
  intros Hbody. revert st. induction items as [|i items IH]; intros st H.
  - discriminate H.
  - cbn [for_each] in H. destruct (body st i) as [st'|e'] eqn:E.
    + exact (IH st' H).
    + injection H as <-. exact (Hbody st i e' E).
Qed.

Lemma b64_crossing_branch_raises (cx cy : Binary64.number)
      (st : Binary64.locals) (p2x p2y : Binary64.number) (e : exn) :
  Binary64.in_band cx cy (Binary64.p1x st) (Binary64.p1y st) p2x p2y = true ->
  Binary64.crossing_branch cx cy st p2x p2y = Raise e ->
  e = OverflowError \/ e = ZeroDivisionError.
Proof.
  intros Hband. unfold Binary64.crossing_branch, Binary64.ne.
  destruct (Binary64.eq (Binary64.p1y st) p2y) eqn:Heq.
  - rewrite (@b64_in_band_horizontal cx cy (Binary64.p1x st) _ p2x _ Heq) in Hband.
    discriminate Hband.
  - cbn [negb]. destruct (Binary64.line_89 cy st p2x p2y) as [v|e'] eqn:E.
    + cbn [bind]. destruct (Binary64.eq (Binary64.p1x st) p2x);
        intros H; discriminate H.
    + cbn [bind]. intros H. injection H as <-.
      exact (@b64_line_89_raises _ _ _ _ _ E).
Qed.

Lemma b64_loop_body_raises (cx cy : Binary64.number) (poly : Binary64.polygon)
      (st : Binary64.locals) (i : nat) (e : exn) :
  Binary64.loop_body cx cy poly st i = Raise e -> e <> UnboundLocalError.
Proof.
  unfold Binary64.loop_body, mod_, list_getitem. intros H.
  destruct (List.length poly) as [|n].
  - injection H as <-. discriminate.
  - cbn [bind] in H.
    destruct (nth_error poly (i mod S n)) as [[p2x p2y]|].
    + cbn [bind] in H.
      destruct (Binary64.in_band cx cy (Binary64.p1x st) (Binary64.p1y st)
                                 p2x p2y) eqn:Hband.
      * destruct (Binary64.crossing_branch cx cy st p2x p2y) as [st1|e'] eqn:E.
        -- discriminate H.
        -- injection H as <-.
           destruct (@b64_crossing_branch_raises _ _ _ _ _ _ Hband E) as [-> | ->];
             discriminate.
      * discriminate H.
    + injection H as <-. discriminate.
Qed.

(** C7, at the failing input.  In binary64 arithmetic a horizontal edge
    never passes the guard of line 87, so line 89 runs only when
    [p1y != p2y], a horizontal edge never toggles the flag, and the test
    never raises [UnboundLocalError].  But [p1y != p2y] does not keep the
    divisor from being zero: with the int [2**54 - 1] and the float
    [2.0**54] as the heights of an edge, the two compare unequal, their
    difference is computed after rounding the int to [2.0**54], and line
    89 raises [ZeroDivisionError]. *)
Theorem division_by_zero_after_rounding :
  (forall cx cy a1x a1y a2x a2y,
      Binary64.eq a1y a2y = true ->
      Binary64.in_band cx cy a1x a1y a2x a2y = false)
  /\ (forall cx cy poly st i p2x p2y,
        nth_error poly (i mod List.length poly) = Some (p2x, p2y) ->
        Binary64.eq (Binary64.p1y st) p2y = true ->
        exists st',
          Binary64.loop_body cx cy poly st i = Ok st'
          /\ Binary64.is_inside st' = Binary64.is_inside st
          /\ Binary64.x_intersection st' = Binary64.x_intersection st)
  /\ (forall cx cy poly, Binary64.ray_cast cx cy poly <> Raise UnboundLocalError)
  /\ Binary64.ne Binary64.below_two_54 Binary64.two_54 = true
  /\ Binary64.sub Binary64.two_54 Binary64.below_two_54
     = Ok (Binary64.Float (S754_zero false))
  /\ Binary64.check_overlap
       (Binary64.Int 0) (Binary64.Int (2 ^ 54))
       (Binary64.Int 0) (Binary64.Int (2 ^ 54))
       [(Binary64.Int 0, Binary64.below_two_54);
        (Binary64.Int 0, Binary64.two_54);
        (Binary64.Int 1, Binary64.Int 0)]
     = Raise ZeroDivisionError.
Proof.
  split; [exact b64_in_band_horizontal|].
  split; [|split; [|repeat split; vm_compute; reflexivity]].
  - intros cx cy poly st i p2x p2y Hnth Heq.
    unfold Binary64.loop_body, mod_, list_getitem.
    unfold Binary64.polygon, Binary64.point in *.
    destruct (List.length poly) as [|n] eqn:Hlen.
    + destruct poly; [|discriminate Hlen].
      destruct (i mod 0)%nat; discriminate Hnth.
    + cbn [bind]. rewrite Hnth. cbn [bind].
      rewrite (@b64_in_band_horizontal cx cy (Binary64.p1x st) _ p2x _ Heq).
      eexists. split; [reflexivity|]. split; reflexivity.
  - intros cx cy poly H. unfold Binary64.ray_cast, list_getitem in H.
    destruct (nth_error poly 0) as [[p0x p0y]|]; [|discriminate H].
    cbn [bind] in H.
    destruct (for_each _ _ _) as [st|e] eqn:E; [discriminate H|].
    injection H as ->.
    exact (@for_each_raises _ _ _ (fun e => e <> UnboundLocalError) _ _ _
             (@b64_loop_body_raises cx cy poly) E eq_refl).
Qed.



